(** * calculator001.py: a restricted arithmetic evaluator over Python's [ast]

    The program parses its input with [ast.parse(expr, mode='eval')] and walks
    the resulting tree in [safe_eval._eval], accepting only binary and unary
    arithmetic nodes and numeric constants.  Arithmetic is Python's own:
    unbounded integers, IEEE binary64 floats, and the numeric tower's
    promotion rules.  This development embeds

    - the numbers of the host ([Float64], [value] and the operators
      [py_add] to [py_pow]),
    - the tree type of [ast] ([expr]) and the evaluator ([_is_number],
      [_eval], [safe_eval]),
    - the body of the two prompt loops and the command-line path
      ([prompt_line], [repl_line], [main_line], [main_argv]),
    - the part of Python's expression grammar the examples are written in
      ([python_expr]),
    - the sessions of [repl()] and of the program ([repl_loop],
      [main_loop], [program]), as functions of what [input()] returns,

    and proves the properties of the specification against them.  The
    loops are written over any implementation of the methods of [str] they
    call and over whatever their [try] statement prints; [latin1] and
    [tried] are the instances the program is run on in the examples. *)

From Stdlib Require Import ZArith List String Ascii Bool Lia.
From Stdlib Require Import Floats.SpecFloat.
Import ListNotations.

Local Open Scope string_scope.
Local Open Scope Z_scope.

(** ** Host floats: IEEE 754 binary64 *)

Module Float64.

Definition prec : Z := 53.
Definition emax : Z := 1024.

Definition float : Type := spec_float.

(** [round_ratio s p q] is the binary64 nearest to [(-1)^s * p / q], ties
    to even; a magnitude beyond the largest finite float gives an
    infinity.  Python rounds this way when it converts an integer, divides
    two integers and reads a decimal literal. *)
Definition round_ratio (s : bool) (p q : positive) : float :=
  let e := fexp prec emax (Z.pos (digits2_pos p) - Z.pos (digits2_pos q)) in
  let num := if e <=? 0 then Z.shiftl (Z.pos p) (- e) else Z.pos p in
  let den := if e <=? 0 then Z.pos q else Z.shiftl (Z.pos q) e in
  let '(m, r) := Z.div_eucl num den in
  binary_round_aux prec emax s m e (new_location den r).

Definition is_zero (x : float) : bool :=
  match x with S754_zero _ => true | _ => false end.

Definition is_finite (x : float) : bool :=
  match x with S754_zero _ | S754_finite _ _ _ => true | _ => false end.

Definition sign (x : float) : bool :=
  match x with
  | S754_zero s | S754_infinity s | S754_finite s _ _ => s
  | S754_nan => false
  end.

(** [x < 0.0] as C compares doubles: false on zeros and on NaN. *)
Definition is_neg (x : float) : bool :=
  match x with
  | S754_infinity s | S754_finite s _ _ => s
  | _ => false
  end.

Definition add : float -> float -> float := SFadd prec emax.
Definition sub : float -> float -> float := SFsub prec emax.
Definition mul : float -> float -> float := SFmul prec emax.
Definition div : float -> float -> float := SFdiv prec emax.
Definition opp : float -> float := SFopp.

(** [of_Z z]: the float nearest to an integer ([PyLong_AsDouble] before its
    overflow check). *)
Definition of_Z (z : Z) : float :=
  match z with
  | Z0 => S754_zero false
  | Zpos p => round_ratio false p 1
  | Zneg p => round_ratio true p 1
  end.

(** [of_decimal m x]: the float written [m * 10^x] in a literal
    ([m >= 0]). *)
Definition of_decimal (m x : Z) : float :=
  match m with
  | Zpos p =>
      if 0 <=? x then round_ratio false (p * Z.to_pos (10 ^ x)) 1
      else round_ratio false p (Z.to_pos (10 ^ (- x)))
  | _ => S754_zero false
  end.

(** C's [fmod]: the exact remainder [x - n * y] with [n] the quotient
    truncated toward zero; it keeps the sign of [x]. *)
Definition fmod (x y : float) : float :=
  match x, y with
  | S754_nan, _ | _, S754_nan => S754_nan
  | S754_infinity _, _ => S754_nan
  | _, S754_zero _ => S754_nan
  | S754_zero _, _ => x
  | S754_finite _ _ _, S754_infinity _ => x
  | S754_finite sx mx ex, S754_finite _ my ey =>
      let e := Z.min ex ey in
      let a := Z.shiftl (Z.pos mx) (ex - e) in
      let b := Z.shiftl (Z.pos my) (ey - e) in
      binary_normalize prec emax (cond_Zopp sx (Z.rem a b)) e sx
  end.

(** [float_rem] of CPython's floatobject.c, for a divisor that is not
    zero: [fmod], moved into the divisor's sign. *)
Definition rem (vx wx : float) : float :=
  let m := fmod vx wx in
  if is_zero m then S754_zero (sign wx)
  else if Bool.eqb (is_neg wx) (is_neg m) then m
  else add m wx.

End Float64.

Import Float64.

(** ** Exceptions and results *)

(** The exception classes that can leave [safe_eval] or that its callers
    name in an [except] clause. *)
Inductive exn : Type :=
| SyntaxError (msg : string)
| ValueError (msg : string)
| ZeroDivisionError
| OverflowError
| TypeError.

Inductive result (A : Type) : Type :=
| Ok (a : A)
| Raise (e : exn).

Arguments Ok {A} a.
Arguments Raise {A} e.

Definition bind {A B : Type} (r : result A) (k : A -> result B) : result B :=
  match r with
  | Ok a => k a
  | Raise e => Raise e
  end.

Notation "x <- r ;; k" := (bind r (fun x => k))
  (at level 61, r at next level, right associativity).

Definition is_ok {A : Type} (r : result A) : bool :=
  match r with Ok _ => true | Raise _ => false end.

(** ** Python numbers *)

Record complex : Type := Complex { real : float; imag : float }.

(** What evaluation can return: [int], [bool] (a subclass of [int]),
    [float], and [complex] (the power of a negative float by a fractional
    exponent). *)
Inductive value : Type :=
| VInt (z : Z)
| VBool (b : bool)
| VFloat (f : float)
| VComplex (c : complex).

(** The two exceptions the arithmetic of the C library can end in. *)
Inductive arith_exn : Type := ZeroDivision | Overflow.

Definition raise_arith {A : Type} (e : arith_exn) : result A :=
  match e with
  | ZeroDivision => Raise ZeroDivisionError
  | Overflow => Raise OverflowError
  end.

Inductive pow_value : Type :=
| PFloat (f : float)
| PComplex (c : complex).

(** The operations Python hands to the platform's libm ([pow], [hypot],
    [atan2], ...) and its complex arithmetic have no closed definition here:
    they are the fields of a host, and every theorem holds for every host.
    So is the limit the interpreter puts on the decimal digits of an
    integer it turns into text ([sys.get_int_max_str_digits()]: 4300 unless
    the interpreter was started otherwise, [None] where there is no limit,
    as before Python 3.11), with the message of the ValueError raised
    beyond it. *)
Record Host : Type := {
  float_pow : float -> float -> arith_exn + pow_value;
  complex_add : complex -> complex -> complex;
  complex_sub : complex -> complex -> complex;
  complex_mul : complex -> complex -> complex;
  complex_quot : complex -> complex -> complex;
  complex_pow : complex -> complex -> arith_exn + complex;
  int_max_str_digits : option nat;
  int_str_limit_error : string
}.

Definition as_int (v : value) : option Z :=
  match v with
  | VInt z => Some z
  | VBool b => Some (Z.b2z b)
  | _ => None
  end.

Definition is_complex (v : value) : bool :=
  match v with VComplex _ => true | _ => false end.

(** [PyLong_AsDouble]: an integer whose nearest float is not finite raises
    OverflowError ("int too large to convert to float"). *)
Definition int_to_float (z : Z) : result float :=
  let f := of_Z z in
  if is_finite f then Ok f else Raise OverflowError.

Definition to_float (v : value) : result float :=
  match v with
  | VInt z => int_to_float z
  | VBool b => int_to_float (Z.b2z b)
  | VFloat f => Ok f
  | VComplex _ => Raise TypeError
  end.

Definition to_complex (v : value) : result complex :=
  match v with
  | VComplex c => Ok c
  | _ => f <- to_float v ;; Ok (Complex f (S754_zero false))
  end.

Definition complex_is_zero (c : complex) : bool :=
  is_zero (real c) && is_zero (imag c).

Definition of_pow (r : arith_exn + pow_value) : result value :=
  match r with
  | inl e => raise_arith e
  | inr (PFloat f) => Ok (VFloat f)
  | inr (PComplex c) => Ok (VComplex c)
  end.

(** [long_true_divide]: the quotient of two integers, rounded once. *)
Definition int_true_divide (a b : Z) : result value :=
  match b with
  | Z0 => Raise ZeroDivisionError
  | _ =>
      match a with
      | Z0 => Ok (VFloat (S754_zero (b <? 0)))
      | _ =>
          let f := round_ratio (xorb (a <? 0) (b <? 0))
                     (Z.to_pos (Z.abs a)) (Z.to_pos (Z.abs b)) in
          if is_finite f then Ok (VFloat f) else Raise OverflowError
      end
  end.

Section Arithmetic.

Variable h : Host.

(** The shape shared by the binary operators: two integers (booleans
    count) stay in [int]; a complex operand takes both to [complex];
    otherwise both are taken to [float], the left one first. *)
Definition coerce (on_int : Z -> Z -> result value)
    (on_float : float -> float -> result value)
    (on_complex : complex -> complex -> result value)
    (l r : value) : result value :=
  match as_int l, as_int r with
  | Some a, Some b => on_int a b
  | _, _ =>
      if is_complex l || is_complex r then
        a <- to_complex l ;; b <- to_complex r ;; on_complex a b
      else
        a <- to_float l ;; b <- to_float r ;; on_float a b
  end.

(** [left + right] *)
Definition py_add : value -> value -> result value :=
  coerce (fun a b => Ok (VInt (a + b)))
         (fun a b => Ok (VFloat (add a b)))
         (fun a b => Ok (VComplex (complex_add h a b))).

(** [left - right] *)
Definition py_sub : value -> value -> result value :=
  coerce (fun a b => Ok (VInt (a - b)))
         (fun a b => Ok (VFloat (sub a b)))
         (fun a b => Ok (VComplex (complex_sub h a b))).

(** [left * right] *)
Definition py_mul : value -> value -> result value :=
  coerce (fun a b => Ok (VInt (a * b)))
         (fun a b => Ok (VFloat (mul a b)))
         (fun a b => Ok (VComplex (complex_mul h a b))).

(** [left / right] *)
Definition py_truediv : value -> value -> result value :=
  coerce int_true_divide
         (fun a b => if is_zero b then Raise ZeroDivisionError
                     else Ok (VFloat (div a b)))
         (fun a b => if complex_is_zero b then Raise ZeroDivisionError
                     else Ok (VComplex (complex_quot h a b))).

(** [left % right]: [complex] has no remainder, so a complex operand is a
    TypeError before anything is converted. *)
Definition py_mod (l r : value) : result value :=
  if is_complex l || is_complex r then Raise TypeError
  else
    coerce (fun a b => if b =? 0 then Raise ZeroDivisionError
                       else Ok (VInt (a mod b)))
           (fun a b => if is_zero b then Raise ZeroDivisionError
                       else Ok (VFloat (rem a b)))
           (fun _ _ => Raise TypeError)
           l r.

(** [left ** right]: an integer power with a negative exponent is the
    float power of the two integers. *)
Definition py_pow : value -> value -> result value :=
  coerce (fun a b =>
            if 0 <=? b then Ok (VInt (a ^ b))
            else x <- int_to_float a ;; y <- int_to_float b ;;
                 of_pow (float_pow h x y))
         (fun a b => of_pow (float_pow h a b))
         (fun a b => match complex_pow h a b with
                     | inl e => raise_arith e
                     | inr c => Ok (VComplex c)
                     end).

End Arithmetic.

(** [+val] *)
Definition py_pos (v : value) : value :=
  match v with
  | VBool b => VInt (Z.b2z b)
  | _ => v
  end.

(** [-val] *)
Definition py_neg (v : value) : value :=
  match v with
  | VInt z => VInt (- z)
  | VBool b => VInt (- Z.b2z b)
  | VFloat f => VFloat (opp f)
  | VComplex c => VComplex (Complex (opp (real c)) (opp (imag c)))
  end.

(** ** The trees of Python's [ast] module *)

Inductive constant : Type :=
| CInt (z : Z)
| CFloat (f : float)
| CComplex (c : complex)
| CStr (s : string)
| CBytes (s : string)
| CBool (b : bool)
| CNone
| CEllipsis.

Inductive operator : Type :=
| Add | Sub | Mult | MatMult | Div | Mod | Pow
| LShift | RShift | BitOr | BitXor | BitAnd | FloorDiv.

Inductive unaryop : Type := Invert | Not | UAdd | USub.

Inductive boolop : Type := And | Or.

Inductive cmpop : Type :=
| Eq_ | NotEq | Lt_ | LtE | Gt_ | GtE | Is | IsNot | In_ | NotIn.

(** The expression classes of [ast] (Python 3.9 to 3.13), with the
    subexpressions they hold.  [_eval] reads the fields of [BinOp],
    [UnaryOp] and [Constant] only; of the other classes the fields that hold
    no expression are left out, and so are keyword arguments, the
    parameters of a lambda and format specifications. *)
#[warnings="-register-all"]
Inductive expr : Type :=
| BoolOp (op : boolop) (values : list expr)
| NamedExpr (target value : expr)
| BinOp (left : expr) (op : operator) (right : expr)
| UnaryOp (op : unaryop) (operand : expr)
| Lambda (body : expr)
| IfExp (test body orelse : expr)
| Dict (keys values : list expr)
| Set_ (elts : list expr)
| ListComp (elt : expr) (generators : list comprehension)
| SetComp (elt : expr) (generators : list comprehension)
| DictComp (key value : expr) (generators : list comprehension)
| GeneratorExp (elt : expr) (generators : list comprehension)
| Await (value : expr)
| Yield (value : option expr)
| YieldFrom (value : expr)
| Compare (left : expr) (ops : list cmpop) (comparators : list expr)
| Call (func : expr) (args : list expr)
| FormattedValue (value : expr)
| JoinedStr (values : list expr)
| Constant (value : constant)
| Attribute (value : expr) (attr : string)
| Subscript (value slice : expr)
| Starred (value : expr)
| Name (id : string)
| List_ (elts : list expr)
| Tuple (elts : list expr)
| Slice (lower upper step : option expr)

with comprehension : Type :=
| Comprehension (target iter : expr) (ifs : list expr) (is_async : bool).

(** What [ast.parse(_, mode='eval')] returns. *)
Inductive tree : Type := Expression (body : expr).

(** ** [_is_number] and [safe_eval] *)

(** [_is_number(node)].  [isinstance(True, int)] holds in Python, so the
    first test lets the two booleans through.  The [ast.Num] test that
    follows it in the source can only succeed on a [Constant] (from Python
    3.8 to 3.13 [ast.Num] is a view of [Constant]), which the first test
    has already decided. *)
Definition _is_number (node : expr) : result value :=
  match node with
  | Constant v =>
      match v with
      | CInt z => Ok (VInt z)
      | CBool b => Ok (VBool b)
      | CFloat f => Ok (VFloat f)
      | _ => Raise (ValueError "Only numbers are allowed")
      end
  | _ => Raise (ValueError "Expected a numeric literal")
  end.

Section Evaluator.

Variable h : Host.

(** [_eval(node)] on an expression node: both operands first, left then
    right, and only then the test of the operator.  (The recursion limit
    and the memory of the interpreter are not modelled: the recursion is as
    deep, and the integers as large, as the tree asks.) *)
Fixpoint _eval (node : expr) : result value :=
  match node with
  | BinOp l op r =>
      left <- _eval l ;;
      right <- _eval r ;;
      match op with
      | Add => py_add h left right
      | Sub => py_sub h left right
      | Mult => py_mul h left right
      | Div => py_truediv h left right
      | Mod => py_mod left right
      | Pow => py_pow h left right
      | _ => Raise (ValueError "Unsupported binary operator")
      end
  | UnaryOp op operand =>
      val <- _eval operand ;;
      match op with
      | UAdd => Ok (py_pos val)
      | USub => Ok (py_neg val)
      | _ => Raise (ValueError "Unsupported unary operator")
      end
  | _ => _is_number node
  end.

(** [_eval(tree)]: the [Expression] wrapper is unwrapped first. *)
Definition _eval_tree (t : tree) : result value :=
  match t with Expression body => _eval body end.

(** [ast.parse] is Python's own parser, taken as a total function from
    the text to a SyntaxError (with its message) or a tree.  (What else
    the parser can raise passes through [safe_eval] unchanged and is not
    modelled: the ValueError for a NUL in the text before Python 3.12, the
    error of a text that cannot be encoded, and the limits on nesting and
    memory.) *)
Variable ast_parse : string -> string + tree.

Definition safe_eval (expr : string) : result value :=
  match ast_parse expr with
  | inl e => Raise (ValueError ("Syntax error: " ++ e))
  | inr t => _eval_tree t
  end.

End Evaluator.

(** ** The callers: the two prompt loops and the command line *)

(** *** Text *)

(** What the loops ask of a [str]: [strip], [lower], whether it is empty
    ([not s]), whether it is one of a tuple of literals ([s in (...)]), and
    whether one of its characters is alphabetic.  These are Python's own
    methods, defined over all of Unicode; the loops are written over any
    implementation of them, on any type of texts. *)
Record Str (T : Type) : Type := {
  str_strip : T -> T;
  str_lower : T -> T;
  str_is_empty : T -> bool;
  str_in : T -> list string -> bool;
  str_any_alpha : T -> bool
}.

Arguments str_strip {T} _ _.
Arguments str_lower {T} _ _.
Arguments str_is_empty {T} _ _.
Arguments str_in {T} _ _ _.
Arguments str_any_alpha {T} _ _.

(** The texts of [string] are those whose characters have a code point
    below 256, one [ascii] for each.  On them [isalpha], [isspace] and
    [lower_char] are [str.isalpha], the characters [str.strip] removes and
    [str.lower], as the Unicode tables of Python 3 have them. *)

Definition code (c : ascii) : N := N_of_ascii c.

Definition within (lo hi : N) (c : ascii) : bool :=
  ((lo <=? code c) && (code c <=? hi))%N.

Definition isupper (c : ascii) : bool := ((65 <=? code c) && (code c <=? 90))%N.
Definition islower (c : ascii) : bool := ((97 <=? code c) && (code c <=? 122))%N.
Definition isdigit (c : ascii) : bool := ((48 <=? code c) && (code c <=? 57))%N.

(** The letters of ASCII. *)
Definition ascii_letter (c : ascii) : bool := isupper c || islower c.

(** [c.isalpha()]: past ASCII, the two ordinal indicators, the micro sign
    and the letters from U+00C0 to U+00FF, which leaves out the signs of
    multiplication and division. *)
Definition isalpha (c : ascii) : bool :=
  ascii_letter c
  || (code c =? 170)%N || (code c =? 181)%N || (code c =? 186)%N
  || within 192 214 c || within 216 246 c || within 248 255 c.

(** The characters [str.strip()] removes: the blanks and separators of
    ASCII, the next-line control U+0085 and the no-break space U+00A0. *)
Definition isspace (c : ascii) : bool :=
  within 9 13 c || within 28 32 c
  || (code c =? 133)%N || (code c =? 160)%N.

Fixpoint lstrip (cs : list ascii) : list ascii :=
  match cs with
  | c :: cs' => if isspace c then lstrip cs' else cs
  | [] => []
  end.

Definition strip (s : string) : string :=
  string_of_list_ascii
    (rev (lstrip (rev (lstrip (list_ascii_of_string s))))).

(** [c.lower()]: the capitals of ASCII and those from U+00C0 to U+00DE
    have their small letter 32 places further. *)
Definition lower_char (c : ascii) : ascii :=
  if isupper c || within 192 214 c || within 216 222 c
  then ascii_of_N (code c + 32) else c.

Definition lower (s : string) : string :=
  string_of_list_ascii (map lower_char (list_ascii_of_string s)).

(** [any(c.isalpha() for c in s)] *)
Definition any_alpha (s : string) : bool :=
  existsb isalpha (list_ascii_of_string s).

(** Characters past ASCII that the examples use: the no-break space
    U+00A0 and the letter e with an acute accent U+00E9; and a line made
    of one of each of the characters [str.strip] removes, except the line
    feed and the carriage return, which end a line. *)
Definition nbsp : string := String (ascii_of_N 160) EmptyString.
Definition e_acute : string := String (ascii_of_N 233) EmptyString.
Definition blanks : string :=
  string_of_list_ascii
    (map ascii_of_N [9; 11; 12; 28; 29; 30; 31; 32; 133; 160]%N).

Definition latin1 : Str string := {|
  str_strip := strip;
  str_lower := lower;
  str_is_empty := fun s => String.eqb s "";
  str_in := fun s words => existsb (String.eqb s) words;
  str_any_alpha := any_alpha
|}.

(** *** The body of the loops *)

(** The lines the program prints about an expression. *)
Inductive printed : Type :=
| Answer (v : value)            (* Answer is: <result> *)
| OnlyNumbers                   (* Only numbers and operators are allowed *)
| InvalidSyntax                 (* Invalid expression: syntax error *)
| InvalidExpression (msg : string)  (* Invalid expression: <message> *)
| MathError                     (* Math error: division by zero *)
| Error (e : exn).              (* Error: <message> *)

(** What one line read at a prompt makes the loop do. *)
Inductive action : Type :=
| Again                         (* [continue] with nothing printed *)
| OpenRepl                      (* [repl()] then [break] *)
| Leave                         (* [break] *)
| Print (p : printed).          (* print, then ask whether to go on *)

Section Prompt.

Context {T : Type}.
Variable str : Str T.

(** [s.lower() in ('quit', 'exit')] *)
Definition leaving (s : T) : bool :=
  str_in str (str_lower str s) ["quit"; "exit"].

(** What the [try] statement of the loop prints for a line it evaluates. *)
Variable tries : T -> printed.

(** The body of a prompt loop on the line [raw] returned by [input]:
    the tests of lines 80-93 (132-146 under [__main__]) in their order;
    [on_blank] is what a blank line does, the one point on which the two
    loops differ. *)
Definition prompt_line (on_blank : action) (raw : T) : action :=
  let s := str_strip str raw in
  if str_is_empty str s then on_blank
  else if leaving s then Leave
  else if str_any_alpha str s then Print OnlyNumbers
  else Print (tries s).

End Prompt.

(** [print(f'Answer is: {result}')], the last statement of the [try] body:
    turning an integer of more decimal digits than the limit into text
    raises ValueError (as of Python 3.11, where the limit cannot be set
    below 640); every other result is printed. *)
Definition exceeds_str_limit (h : Host) (z : Z) : bool :=
  match int_max_str_digits h with
  | Some n => 10 ^ Z.of_nat (Nat.max n 640) <=? Z.abs z
  | None => false
  end.

Definition shown (h : Host) (r : result value) : result value :=
  match r with
  | Ok (VInt z) =>
      if exceeds_str_limit h z then Raise (ValueError (int_str_limit_error h))
      else r
  | _ => r
  end.

(** The [except] clauses of both loops in their order, on what the [try]
    body did: it printed the answer, or raised. *)
Definition report (r : result value) : printed :=
  match r with
  | Ok v => Answer v
  | Raise (SyntaxError _) => InvalidSyntax
  | Raise (ValueError msg) => InvalidExpression msg
  | Raise ZeroDivisionError => MathError
  | Raise e => Error e
  end.

Section Callers.

Variable h : Host.
Variable ast_parse : string -> string + tree.

(** The [try] statement of the loops (lines 95-105 and 148-158):
    [safe_eval], the answer printed, and the [except] clauses. *)
Definition tried (s : string) : printed :=
  report (shown h (safe_eval h ast_parse s)).

(** The body of [repl]'s loop: a blank line is skipped. *)
Definition repl_line (raw : string) : action :=
  prompt_line latin1 tried Again raw.

(** The body of the loop under [__main__]: a blank line opens [repl()]. *)
Definition main_line (raw : string) : action :=
  prompt_line latin1 tried OpenRepl raw.

(** [' '.join(sys.argv[1:])] evaluated once (lines 119-126): what is
    printed, and the exit status. *)
Definition main_argv (args : list string) : printed * Z :=
  match shown h (safe_eval h ast_parse (String.concat " " args)) with
  | Ok v => (Answer v, 0)
  | Raise e => (Error e, 1)
  end.

End Callers.

(** ** The expression grammar of [ast.parse]

    [ast.parse] is not part of the program; what follows is the part of
    Python's grammar (the rules [inversion] down to [atom] of the language
    reference for Python 3.9 and later, and the tokens they use) in which
    the examples of the specification are written.  [python_expr] answers
    [Parses t] or [Invalid] only where Python's parser is sure to do the
    same, and [Unmodelled] everywhere else: on every character, token or
    phrase outside this part. *)

Inductive token : Type :=
| TNum (c : constant)
| TStr (s : string)
| TName (s : string)
| TTrue | TFalse | TNone | TNot
| TStmt (kw : string)
| TSemi
| TPlus | TMinus | TStar | TDoubleStar | TSlash | TDoubleSlash | TPercent | TAt
| TLShift | TRShift | TAmp | TBar | TCaret | TTilde
| TLPar | TRPar | TLSqb | TRSqb | TComma | TDot.

Definition squote : ascii := ascii_of_N 39.
Definition dquote : ascii := ascii_of_N 34.

Definition is_quote (c : ascii) : bool :=
  Ascii.eqb c squote || Ascii.eqb c dquote.

Definition is_blank (c : ascii) : bool :=
  ((code c =? 32) || (code c =? 9))%N.

Definition is_ident_start (c : ascii) : bool :=
  ascii_letter c || Ascii.eqb c "_".

Definition is_ident (c : ascii) : bool :=
  is_ident_start c || isdigit c.

(** A character a short string may hold here: printable, and neither the
    closing quote nor a backslash. *)
Definition is_plain (q c : ascii) : bool :=
  ((32 <=? code c) && (code c <=? 126))%N
  && negb (Ascii.eqb c q) && negb (Ascii.eqb c "\").

Fixpoint span (p : ascii -> bool) (cs : list ascii) : list ascii * list ascii :=
  match cs with
  | c :: cs' =>
      if p c then let '(a, b) := span p cs' in (c :: a, b) else ([], cs)
  | [] => ([], [])
  end.

Definition digits_value (ds : list ascii) : Z :=
  fold_left (fun acc c => 10 * acc + (Z.of_N (code c) - 48)) ds 0.

Definition starts_with (p : ascii -> bool) (cs : list ascii) : bool :=
  match cs with c :: _ => p c | [] => false end.

(** Keywords that only occur in statements: no expression holds one. *)
Definition statement_keywords : list string :=
  [ "import"; "def"; "class"; "return"; "pass"; "del"; "global"; "nonlocal";
    "assert"; "raise"; "try"; "except"; "finally"; "while"; "with"; "break";
    "continue"; "elif" ].

(** Keywords of expressions that are outside the part modelled. *)
Definition other_keywords : list string :=
  [ "and"; "or"; "in"; "is"; "if"; "else"; "for"; "lambda"; "await"; "async";
    "yield"; "from"; "as" ].

Definition mem (s : string) (l : list string) : bool :=
  existsb (String.eqb s) l.

Definition word (s : string) : option token :=
  if String.eqb s "True" then Some TTrue
  else if String.eqb s "False" then Some TFalse
  else if String.eqb s "None" then Some TNone
  else if String.eqb s "not" then Some TNot
  else if mem s statement_keywords then Some (TStmt s)
  else if mem s other_keywords then None
  else Some (TName s).

(** Python refuses an integer literal of more digits than this. *)
Definition max_str_digits : nat := 4300.

(** A decimal integer, or a float with a fraction, an exponent or both.
    A letter or an underscore right after the digits (a radix prefix, a
    digit separator, the imaginary suffix) is outside the part modelled, and
    so are a nonzero integer written with a leading zero and an integer of
    more than [max_str_digits] digits. *)
Definition number (cs : list ascii) : option (constant * list ascii) :=
  let '(ip, r1) := span isdigit cs in
  let '(fp, r2, dot) :=
    match r1 with
    | "."%char :: r => let '(fp, r') := span isdigit r in (fp, r', true)
    | _ => ([], r1, false)
    end in
  let '(ex, r3, has_exp) :=
    match r2 with
    | e :: r =>
        if Ascii.eqb e "e" || Ascii.eqb e "E" then
          let '(neg, r') :=
            match r with
            | "+"%char :: t => (false, t)
            | "-"%char :: t => (true, t)
            | _ => (false, r)
            end in
          let '(ed, r'') := span isdigit r' in
          match ed with
          | [] => (0, r2, false)
          | _ => (if neg then - digits_value ed else digits_value ed, r'', true)
          end
        else (0, r2, false)
    | [] => (0, r2, false)
    end in
  if starts_with is_ident_start r3 then None
  else
    match ip, fp with
    | [], [] => None
    | _, _ =>
        if dot || has_exp then
          Some (CFloat (of_decimal (digits_value (List.app ip fp))
                          (ex - Z.of_nat (List.length fp))), r3)
        else if starts_with (Ascii.eqb "0") ip
                && negb (digits_value ip =? 0) then None
        else if (max_str_digits <? List.length ip)%nat then None
        else Some (CInt (digits_value ip), r3)
    end.

Definition punct (c : ascii) (cs : list ascii) : option (token * list ascii) :=
  match c, cs with
  | "*"%char, "*"%char :: r => Some (TDoubleStar, r)
  | "/"%char, "/"%char :: r => Some (TDoubleSlash, r)
  | "<"%char, "<"%char :: r => Some (TLShift, r)
  | ">"%char, ">"%char :: r => Some (TRShift, r)
  | "*"%char, _ => Some (TStar, cs)
  | "/"%char, _ => Some (TSlash, cs)
  | "+"%char, _ => Some (TPlus, cs)
  | "-"%char, _ => Some (TMinus, cs)
  | "%"%char, _ => Some (TPercent, cs)
  | "@"%char, _ => Some (TAt, cs)
  | "&"%char, _ => Some (TAmp, cs)
  | "|"%char, _ => Some (TBar, cs)
  | "^"%char, _ => Some (TCaret, cs)
  | "~"%char, _ => Some (TTilde, cs)
  | "("%char, _ => Some (TLPar, cs)
  | ")"%char, _ => Some (TRPar, cs)
  | "["%char, _ => Some (TLSqb, cs)
  | "]"%char, _ => Some (TRSqb, cs)
  | ","%char, _ => Some (TComma, cs)
  | "."%char, _ => Some (TDot, cs)
  | ";"%char, _ => Some (TSemi, cs)
  | _, _ => None
  end.

(** The tokens of a line; [None] when a character or a literal is outside
    the part modelled (or the fuel, one unit per token, runs out). *)
Fixpoint lex (fuel : nat) (cs : list ascii) : option (list token) :=
  match fuel with
  | O => None
  | S fuel =>
      match cs with
      | [] => Some []
      | c :: r =>
          if is_blank c then lex fuel r
          else if isdigit c || (Ascii.eqb c "." && starts_with isdigit r) then
            match number cs with
            | Some (k, r') => option_map (cons (TNum k)) (lex fuel r')
            | None => None
            end
          else if is_ident_start c then
            let '(w, r') := span is_ident cs in
            if starts_with is_quote r' then None
            else
              match word (string_of_list_ascii w) with
              | Some t => option_map (cons t) (lex fuel r')
              | None => None
              end
          else if is_quote c then
            let '(body, r') := span (is_plain c) r in
            match body, r' with
            | [], q :: q' :: _ =>
                if Ascii.eqb q c && Ascii.eqb q' c then None
                else if Ascii.eqb q c then
                  option_map (cons (TStr "")) (lex fuel (tl r'))
                else None
            | _, q :: r'' =>
                if Ascii.eqb q c then
                  option_map (cons (TStr (string_of_list_ascii body)))
                    (lex fuel r'')
                else None
            | _, [] => None
            end
          else
            match punct c r with
            | Some (t, r') => option_map (cons t) (lex fuel r')
            | None => None
            end
      end
  end.

Definition is_statement_token (t : token) : bool :=
  match t with TStmt _ | TSemi => true | _ => false end.

(** The binary operators of one precedence level, loosest first:
    [|], [^], [&], shifts, sums, terms. *)
Definition binary_at (level : nat) (t : token) : option operator :=
  match level, t with
  | 0%nat, TBar => Some BitOr
  | 1%nat, TCaret => Some BitXor
  | 2%nat, TAmp => Some BitAnd
  | 3%nat, TLShift => Some LShift
  | 3%nat, TRShift => Some RShift
  | 4%nat, TPlus => Some Add
  | 4%nat, TMinus => Some Sub
  | 5%nat, TStar => Some Mult
  | 5%nat, TSlash => Some Div
  | 5%nat, TDoubleSlash => Some FloorDiv
  | 5%nat, TPercent => Some Mod
  | 5%nat, TAt => Some MatMult
  | _, _ => None
  end.

Definition parsed (A : Type) : Type := option (A * list token).

(** Recursive descent, one function per rule of the grammar:
    - [inversion: 'not' inversion | bitwise_or]
    - the six left-associative levels from [bitwise_or] to [term]
    - [factor: ('+' | '-' | '~') factor | power]
    - [power: primary '**' factor | primary]
    - [primary: atom] followed by [.NAME], [(args)] and [[index]]
    - [atom]: a name, a number, a string, [True], [False], [None], a
      parenthesised expression or tuple, a list display.
    Each call spends one unit of fuel. *)
Fixpoint inversion (n : nat) (ts : list token) : parsed expr :=
  match n with
  | O => None
  | S n =>
      match ts with
      | TNot :: r =>
          match inversion n r with
          | Some (e, r') => Some (UnaryOp Not e, r')
          | None => None
          end
      | _ => binary n 0%nat ts
      end
  end

with binary (n : nat) (level : nat) (ts : list token) : parsed expr :=
  match n with
  | O => None
  | S n =>
      if (6 <=? level)%nat then factor n ts
      else
        match binary n (S level) ts with
        | Some (e, r) => binary_rest n level e r
        | None => None
        end
  end

with binary_rest (n : nat) (level : nat) (lhs : expr) (ts : list token)
    : parsed expr :=
  match n with
  | O => None
  | S n =>
      match ts with
      | t :: r =>
          match binary_at level t with
          | Some op =>
              match binary n (S level) r with
              | Some (rhs, r') => binary_rest n level (BinOp lhs op rhs) r'
              | None => None
              end
          | None => Some (lhs, ts)
          end
      | [] => Some (lhs, [])
      end
  end

with factor (n : nat) (ts : list token) : parsed expr :=
  match n with
  | O => None
  | S n =>
      let unary op r :=
        match factor n r with
        | Some (e, r') => Some (UnaryOp op e, r')
        | None => None
        end in
      match ts with
      | TPlus :: r => unary UAdd r
      | TMinus :: r => unary USub r
      | TTilde :: r => unary Invert r
      | _ => power n ts
      end
  end

with power (n : nat) (ts : list token) : parsed expr :=
  match n with
  | O => None
  | S n =>
      match primary n ts with
      | Some (b, TDoubleStar :: r) =>
          match factor n r with
          | Some (e, r') => Some (BinOp b Pow e, r')
          | None => None
          end
      | other => other
      end
  end

with primary (n : nat) (ts : list token) : parsed expr :=
  match n with
  | O => None
  | S n =>
      match atom n ts with
      | Some (a, r) => trailers n a r
      | None => None
      end
  end

with trailers (n : nat) (e : expr) (ts : list token) : parsed expr :=
  match n with
  | O => None
  | S n =>
      match ts with
      | TDot :: TName a :: r => trailers n (Attribute e a) r
      | TDot :: _ => None
      | TLPar :: r =>
          match items n TRPar r with
          | Some ((args, _), r') => trailers n (Call e args) r'
          | None => None
          end
      | TLSqb :: r =>
          match items n TRSqb r with
          | Some (([], _), _) => None
          | Some (([i], false), r') => trailers n (Subscript e i) r'
          | Some ((es, _), r') => trailers n (Subscript e (Tuple es)) r'
          | None => None
          end
      | _ => Some (e, ts)
      end
  end

with atom (n : nat) (ts : list token) : parsed expr :=
  match n with
  | O => None
  | S n =>
      match ts with
      | TNum k :: r => Some (Constant k, r)
      | TStr s :: r => Some (Constant (CStr s), r)
      | TName x :: r => Some (Name x, r)
      | TTrue :: r => Some (Constant (CBool true), r)
      | TFalse :: r => Some (Constant (CBool false), r)
      | TNone :: r => Some (Constant CNone, r)
      | TLPar :: r =>
          match items n TRPar r with
          | Some (([e], false), r') => Some (e, r')
          | Some ((es, _), r') => Some (Tuple es, r')
          | None => None
          end
      | TLSqb :: r =>
          match items n TRSqb r with
          | Some ((es, _), r') => Some (List_ es, r')
          | None => None
          end
      | _ => None
      end
  end

(** Expressions separated by commas up to the closing bracket [close],
    with whether a comma was read. *)
with items (n : nat) (close : token) (ts : list token)
    : parsed (list expr * bool) :=
  match n with
  | O => None
  | S n =>
      let closes t :=
        match close, t with
        | TRPar, TRPar | TRSqb, TRSqb => true
        | _, _ => false
        end in
      match ts with
      | [] => None
      | t :: r =>
          if closes t then Some (([], false), r)
          else
            match inversion n ts with
            | Some (e, TComma :: r') =>
                match items n close r' with
                | Some ((es, _), r'') => Some ((e :: es, true), r'')
                | None => None
                end
            | Some (e, t' :: r') =>
                if closes t' then Some (([e], false), r') else None
            | _ => None
            end
      end
  end.

Inductive verdict : Type :=
| Parses (t : tree)
| Invalid
| Unmodelled.

(** Python bounds the nesting of brackets and the depth of its parse; a text
    of more tokens than this is left out, so that no bound is reached. *)
Definition max_tokens : nat := 64.

(** The fuel [python_expr] gives the parser: enough for any text of
    [max_tokens] tokens. *)
Definition parse_fuel : nat := 20 * S max_tokens.

(** The verdict on a source text.  The empty text, and a text whose tokens
    include [;] or a keyword of statements, is a syntax error whatever else
    it holds; a text starting with a blank is left out (the tokenizer of
    Python reads it as an indent). *)
Definition python_expr (s : string) : verdict :=
  let cs := list_ascii_of_string s in
  match cs with
  | [] => Invalid
  | c :: _ =>
      if is_blank c then Unmodelled
      else
        match lex (S (List.length cs)) cs with
        | None => Unmodelled
        | Some ts =>
            if (max_tokens <? List.length ts)%nat then Unmodelled
            else if existsb is_statement_token ts then Invalid
            else
              match inversion parse_fuel ts with
              | Some (e, []) => Parses (Expression e)
              | _ => Unmodelled
              end
        end
  end.

(** [conforms ast_parse]: the parser agrees with the grammar above wherever
    the grammar gives a verdict. *)
Definition conforms (ast_parse : string -> string + tree) : Prop :=
  forall s,
    match python_expr s with
    | Parses t => ast_parse s = inr t
    | Invalid => exists msg, ast_parse s = inl msg
    | Unmodelled => True
    end.

(** A parser that conforms: it reports every text without a tree as a
    syntax error. *)
Definition grammar_parse (s : string) : string + tree :=
  match python_expr s with
  | Parses t => inr t
  | _ => inl "invalid syntax"
  end.

(** ** Predicates on trees and values used by the statements *)

(** The operators [_eval] has a case for. *)
Definition supported_binary (op : operator) : bool :=
  match op with
  | Add | Sub | Mult | Div | Mod | Pow => true
  | _ => false
  end.

Definition supported_unary (op : unaryop) : bool :=
  match op with
  | UAdd | USub => true
  | _ => false
  end.

(** A node that is neither an operation nor a constant holding an [int], a
    [float] or a [bool]: a name, a call, an attribute, a subscript, a string
    or a collection display, a comparison, [and]/[or], [:=], ... *)
Definition outside_arithmetic (e : expr) : bool :=
  match e with
  | BinOp _ _ _ | UnaryOp _ _ => false
  | Constant (CInt _ | CFloat _ | CBool _) => false
  | _ => true
  end.

(** An operation whose operator has no case in [_eval]. *)
Definition unsupported_operator (e : expr) : bool :=
  match e with
  | BinOp _ op _ => negb (supported_binary op)
  | UnaryOp op _ => negb (supported_unary op)
  | _ => false
  end.

Definition rejected_node (e : expr) : bool :=
  outside_arithmetic e || unsupported_operator e.

(** [has_node p e]: some node of [e], at any depth, satisfies [p]. *)
Fixpoint has_node (p : expr -> bool) (e : expr) : bool :=
  let opt o := match o with Some x => has_node p x | None => false end in
  p e ||
  match e with
  | BoolOp _ es | Set_ es | JoinedStr es | List_ es | Tuple es =>
      existsb (has_node p) es
  | NamedExpr a b | Subscript a b => has_node p a || has_node p b
  | BinOp l _ r => has_node p l || has_node p r
  | UnaryOp _ x => has_node p x
  | Lambda x | Await x | YieldFrom x | FormattedValue x | Starred x
  | Attribute x _ => has_node p x
  | IfExp c a b => has_node p c || has_node p a || has_node p b
  | Dict ks vs => existsb (has_node p) ks || existsb (has_node p) vs
  | ListComp x gs | SetComp x gs | GeneratorExp x gs =>
      has_node p x || existsb (comprehension_has p) gs
  | DictComp k v gs =>
      has_node p k || has_node p v || existsb (comprehension_has p) gs
  | Yield o => opt o
  | Compare l _ cs => has_node p l || existsb (has_node p) cs
  | Call f args => has_node p f || existsb (has_node p) args
  | Slice a b c => opt a || opt b || opt c
  | Constant _ | Name _ => false
  end

with comprehension_has (p : expr -> bool) (c : comprehension) : bool :=
  match c with
  | Comprehension t i ifs _ =>
      has_node p t || has_node p i || existsb (has_node p) ifs
  end.

Definition tree_has (p : expr -> bool) (t : tree) : bool :=
  match t with Expression body => has_node p body end.

(** A ValueError, whatever its message: the program has no other class for
    a rejected input, a syntax error included. *)
Definition is_value_error (r : result value) : bool :=
  match r with Raise (ValueError _) => true | _ => false end.

Definition is_float (v : value) : bool :=
  match v with VFloat _ => true | _ => false end.

Definition is_integer (v : value) : bool :=
  match v with VInt _ | VBool _ => true | _ => false end.

(** [r == 0] in Python: the integer zero, [False], either float zero, and
    the complex zero. *)
Definition value_is_zero (r : value) : bool :=
  match r with
  | VInt z => z =? 0
  | VBool b => negb b
  | VFloat f => is_zero f
  | VComplex c => complex_is_zero c
  end.

(** The operand converts to a float: it is one, or an integer whose nearest
    float is finite. *)
Definition fits_float (v : value) : bool := is_ok (to_float v).

Definition returns_integer (r : result value) : bool :=
  match r with Ok v => is_integer v | Raise _ => false end.

Definition is_syntax_error {A : Type} (r : result A) : bool :=
  match r with Raise (SyntaxError _) => true | _ => false end.

(** The two classes of node [_eval] descends into. *)
Definition is_operation (e : expr) : bool :=
  match e with
  | BinOp _ _ _ | UnaryOp _ _ => true
  | _ => false
  end.

(** A float carries the sign [s]: its sign bit is [s], and it is not a
    NaN.  Zeros count: [-0.0] carries the sign of a negative number. *)
Definition has_sign (s : bool) (x : float) : Prop :=
  match x with
  | S754_zero s' | S754_infinity s' | S754_finite s' _ _ => s' = s
  | S754_nan => False
  end.

Definition returns_boolean (r : result value) : bool :=
  match r with Ok (VBool _) => true | _ => false end.

(** The messages of the ValueErrors raised while a tree is evaluated. *)
Definition eval_messages : list string :=
  [ "Only numbers are allowed"; "Expected a numeric literal";
    "Unsupported binary operator"; "Unsupported unary operator" ].

(** ** The sessions: [repl()] and the program
    What the interpreter hands to [input()] is a list of events, a line or
    an interrupt; past its end, [input()] raises EOFError.  What the program
    writes is a list of outputs, the prompts of [input()] included.  As the
    body of the loops, the sessions are written over any implementation of
    Python's [str] and over whatever the [try] statement of a loop prints
    for a line it evaluates. *)

Inductive event_of (T : Type) : Type :=
| Line (text : T)
| Interrupt.

Arguments Line {T} text.
Arguments Interrupt {T}.

(** The two exceptions [input()] raises. *)
Inductive escape : Type := EOFError | KeyboardInterrupt.

Inductive output_of (L : Type) : Type :=
| ReplBanner      (* Calculator REPL. Type 'quit' or 'exit' to leave. *)
| MainBanner      (* Enter expressions (or press Enter to open REPL). ... *)
| AskExpression   (* the prompt '> ' *)
| AskAnother      (* the prompt 'Do you want another calculation? (y/n): ' *)
| BlankLine       (* print() *)
| Refused         (* Only numbers and operators are allowed *)
| Said (line : L) (* the line the [try] statement prints *)
| PleaseAnswer.   (* Please answer 'y' or 'n'. *)

Arguments ReplBanner {L}.
Arguments MainBanner {L}.
Arguments AskExpression {L}.
Arguments AskAnother {L}.
Arguments BlankLine {L}.
Arguments Refused {L}.
Arguments Said {L} line.
Arguments PleaseAnswer {L}.

(** How a run ends: the function returns (the program reaches its end),
    [sys.exit] is called, or an exception of [input()] that no [except]
    clause covers leaves it. *)
Inductive ending : Type :=
| Returned
| Exit (status : Z)
| Uncaught (x : escape).

(** Where a loop is about to read: at its prompt, or at its question. *)
Inductive place : Type := AtPrompt | AtQuestion.

Inductive reply : Type := Yes | No | Unclear.

Definition emit {L : Type} (o : output_of L) (r : list (output_of L) * ending)
    : list (output_of L) * ending :=
  (o :: fst r, snd r).

Section Loops.

Context {T L : Type}.
Variable str : Str T.

(** [ans = input(...).strip().lower()] against [('y', 'yes')] and
    [('n', 'no')]. *)
Definition read_answer (raw : T) : reply :=
  let ans := str_lower str (str_strip str raw) in
  if str_in str ans ["y"; "yes"] then Yes
  else if str_in str ans ["n"; "no"] then No
  else Unclear.

(** What the [try] statement of [repl] prints for a line. *)
Variable in_repl : T -> L.

(** The [while True] of [repl], from the place it is at.  An exception of
    [input()] is caught at the prompt (lines 79-83) and not at the question
    (line 109). *)
Fixpoint repl_loop (at_ : place) (inp : list (event_of T)) {struct inp}
    : list (output_of L) * ending :=
  match at_, inp with
  | AtPrompt, [] | AtPrompt, Interrupt :: _ =>
      ([AskExpression; BlankLine], Returned)
  | AtPrompt, Line raw :: rest =>
      let s := str_strip str raw in
      emit AskExpression
        (if str_is_empty str s then repl_loop AtPrompt rest
         else if leaving str s then ([], Returned)
         else if str_any_alpha str s then
           emit Refused (repl_loop AtPrompt rest)
         else
           emit (Said (in_repl s)) (repl_loop AtQuestion rest))
  | AtQuestion, [] => ([AskAnother], Uncaught EOFError)
  | AtQuestion, Interrupt :: _ => ([AskAnother], Uncaught KeyboardInterrupt)
  | AtQuestion, Line raw :: rest =>
      emit AskAnother
        match read_answer raw with
        | Yes => repl_loop AtPrompt rest
        | No => ([], Returned)
        | Unclear => emit PleaseAnswer (repl_loop AtQuestion rest)
        end
  end.

(** [repl()] *)
Definition repl_session (inp : list (event_of T))
    : list (output_of L) * ending :=
  emit ReplBanner (repl_loop AtPrompt inp).

(** What the [try] statement under [__main__] prints for a line. *)
Variable in_main : T -> L.

(** The [while True] under [__main__]: a blank line runs [repl()] and then
    leaves the loop, and the answer no calls [sys.exit(0)]. *)
Fixpoint main_loop (at_ : place) (inp : list (event_of T)) {struct inp}
    : list (output_of L) * ending :=
  match at_, inp with
  | AtPrompt, [] | AtPrompt, Interrupt :: _ =>
      ([AskExpression; BlankLine], Returned)
  | AtPrompt, Line raw :: rest =>
      let s := str_strip str raw in
      emit AskExpression
        (if str_is_empty str s then repl_session rest
         else if leaving str s then ([], Returned)
         else if str_any_alpha str s then
           emit Refused (main_loop AtPrompt rest)
         else
           emit (Said (in_main s)) (main_loop AtQuestion rest))
  | AtQuestion, [] => ([AskAnother], Uncaught EOFError)
  | AtQuestion, Interrupt :: _ => ([AskAnother], Uncaught KeyboardInterrupt)
  | AtQuestion, Line raw :: rest =>
      emit AskAnother
        match read_answer raw with
        | Yes => main_loop AtPrompt rest
        | No => ([], Exit 0)
        | Unclear => emit PleaseAnswer (main_loop AtQuestion rest)
        end
  end.

(** The program started without arguments: its banner, then its loop. *)
Definition main_session (inp : list (event_of T))
    : list (output_of L) * ending :=
  emit MainBanner (main_loop AtPrompt inp).

(** A line a loop evaluates: once stripped it is not empty, does not ask
    to leave and holds no letter. *)
Definition evaluable (raw : T) : Prop :=
  str_is_empty str (str_strip str raw) = false
  /\ leaving str (str_strip str raw) = false
  /\ str_any_alpha str (str_strip str raw) = false.

(** A line a loop refuses: once stripped it is not empty, does not ask to
    leave and holds a letter. *)
Definition refused (raw : T) : Prop :=
  str_is_empty str (str_strip str raw) = false
  /\ leaving str (str_strip str raw) = false
  /\ str_any_alpha str (str_strip str raw) = true.

(** Where a printed line about an expression comes from: the refusal from
    a line of the input that the loop refuses, the line of a [try]
    statement from a line of the input that the loop evaluates. *)
Definition accounted_for (inp : list (event_of T)) (o : output_of L) : Prop :=
  match o with
  | Refused => exists raw, In (Line raw) inp /\ refused raw
  | Said line =>
      exists raw,
        In (Line raw) inp
        /\ evaluable raw
        /\ (line = in_repl (str_strip str raw)
            \/ line = in_main (str_strip str raw))
  | _ => True
  end.

(** A calculation as typed: a line the loop evaluates, then an answer that
    says yes. *)
Definition confirmed (c : T * T) : Prop :=
  evaluable (fst c) /\ read_answer (snd c) = Yes.

(** A line after which a loop is at its prompt again, or has stopped,
    without an evaluation: a blank one, a request to leave, or one with a
    letter. *)
Definition quiet (ev : event_of T) : Prop :=
  match ev with
  | Line raw =>
      str_is_empty str (str_strip str raw) = true
      \/ leaving str (str_strip str raw) = true
      \/ str_any_alpha str (str_strip str raw) = true
  | Interrupt => True
  end.

End Loops.

(** The events of a list of calculations, each an expression and the answer
    given to the question that follows it. *)
Definition typed {T : Type} (lines : list (T * T)) : list (event_of T) :=
  flat_map (fun c => [Line (fst c); Line (snd c)]) lines.

(** The outputs of a list of calculations, each one confirmed. *)
Definition calculations {T L : Type} (str : Str T) (tries : T -> L)
    (lines : list (T * T)) : list (output_of L) :=
  flat_map
    (fun c => [AskExpression; Said (tries (str_strip str (fst c))); AskAnother])
    lines.

(** An output of a session in which nothing is evaluated: no line of a
    [try] statement, and no question. *)
Definition without_evaluation {L : Type} (o : output_of L) : Prop :=
  match o with
  | Said _ | AskAnother | PleaseAnswer => False
  | _ => True
  end.

(** A run that ends by [sys.exit] or by an exception does so at the
    question, and its exit status is 0. *)
Definition ends_at_question {L : Type} (r : list (output_of L) * ending)
    : Prop :=
  match snd r with
  | Returned => True
  | Exit status => status = 0 /\ last (fst r) BlankLine = AskAnother
  | Uncaught _ => last (fst r) BlankLine = AskAnother
  end.

Definition no_exit {L : Type} (r : list (output_of L) * ending) : Prop :=
  forall status, snd r <> Exit status.

Definition interrupt_was_typed {T L : Type} (inp : list (event_of T))
    (r : list (output_of L) * ending) : Prop :=
  snd r = Uncaught KeyboardInterrupt -> In Interrupt inp.

(** Which output may come right after which. *)
Definition may_follow {L : Type} (a b : output_of L) : bool :=
  match a, b with
  | (ReplBanner | MainBanner), AskExpression => true
  | AskExpression, (AskExpression | BlankLine | ReplBanner | Refused | Said _)
      => true
  | Refused, AskExpression => true
  | Said _, AskAnother => true
  | AskAnother, (PleaseAnswer | AskExpression) => true
  | PleaseAnswer, AskAnother => true
  | _, _ => false
  end.

(** Which output may be the last one: a prompt (the loop is left from it,
    or an exception of [input()] escapes from the question) or the empty
    line printed when the input ends or is interrupted at the prompt. *)
Definition may_end {L : Type} (a : output_of L) : bool :=
  match a with
  | AskExpression | AskAnother | BlankLine => true
  | _ => false
  end.

(** Each output is followed by one that may follow it, and the last one
    may be last. *)
Fixpoint chained {L : Type} (os : list (output_of L)) : bool :=
  match os with
  | [] => true
  | a :: t =>
      match t with
      | [] => may_end a
      | b :: _ => may_follow a b && chained t
      end
  end.

(** What a loop prints first, from the place it is at. *)
Definition first_output {L : Type} (at_ : place) : output_of L :=
  match at_ with AtPrompt => AskExpression | AtQuestion => AskAnother end.

(** *** The sessions of the program *)

Definition event : Type := event_of string.
Definition output : Type := output_of printed.

(** The answer read at the question, on a [string]. *)
Definition read_reply (raw : string) : reply := read_answer latin1 raw.

Section Sessions.

Variable h : Host.
Variable ast_parse : string -> string + tree.

Definition repl_from (at_ : place) (inp : list event)
    : list output * ending :=
  repl_loop latin1 (tried h ast_parse) at_ inp.

(** [repl()] *)
Definition repl (inp : list event) : list output * ending :=
  repl_session latin1 (tried h ast_parse) inp.

Definition main_from (at_ : place) (inp : list event)
    : list output * ending :=
  main_loop latin1 (tried h ast_parse) (tried h ast_parse) at_ inp.

(** The program: with arguments ([sys.argv[1:]]) it evaluates them once and
    reads nothing; without, it prints its banner and enters its loop. *)
Definition program (argv : list string) (inp : list event)
    : list output * ending :=
  match argv with
  | [] => main_session latin1 (tried h ast_parse) (tried h ast_parse) inp
  | _ =>
      match shown h (safe_eval h ast_parse (String.concat " " argv)) with
      | Ok v => ([Said (Answer v)], Returned)
      | Raise e => ([Said (Error e)], Exit 1)
      end
  end.

End Sessions.

(** A list of characters that does not start with one [strip] removes. *)
Definition clean_start (l : list ascii) : Prop :=
  match l with
  | [] => True
  | c :: _ => isspace c = false
  end.

(** ** Theorems *)

Lemma grammar_parse_conforms : conforms grammar_parse.
Proof.
  intro s. unfold grammar_parse.
  destruct (python_expr s); eauto.
Qed.

Section Conforming.

Variable h : Host.
Variable ast_parse : string -> string + tree.
Hypothesis parser_ok : conforms ast_parse.

Lemma safe_eval_parses (s : string) (e : expr) :
  python_expr s = Parses (Expression e) ->
  safe_eval h ast_parse s = _eval h e.
Proof.
  intro Hp. unfold safe_eval.
  generalize (parser_ok s). rewrite Hp. intros ->. reflexivity.
Qed.


End Conforming.

(** A line without letters that is neither blank nor a request to leave is
    handed to [safe_eval], and what comes back is reported. *)
Lemma prompt_evaluates (h : Host) (ast_parse : string -> string + tree)
    (raw : string) :
  String.eqb (strip raw) "" = false ->
  leaving latin1 (strip raw) = false ->
  any_alpha (strip raw) = false ->
  repl_line h ast_parse raw = Print (tried h ast_parse (strip raw))
  /\ main_line h ast_parse raw = Print (tried h ast_parse (strip raw)).
Proof.
  intros Hne Hq Ha. unfold repl_line, main_line, prompt_line.
  cbn [latin1 str_strip str_is_empty str_any_alpha].
  rewrite Hne, Hq, Ha. split; reflexivity.
Qed.

(** Runs [safe_eval] on a text the grammar parses. *)
Ltac run_safe_eval :=
  erewrite safe_eval_parses by (try eassumption; vm_compute; reflexivity);
  vm_compute; reflexivity.

(** C6: [**] associates to the right.  "2 ** 3 ** 2" is read as
    2 ** (3 ** 2), whatever the three literals are, and evaluates to 512;
    the left-nested reading would give 64. *)
Theorem power_is_right_associative :
  forall (h : Host) (ast_parse : string -> string + tree),
    conforms ast_parse ->
    safe_eval h ast_parse "2 ** 3 ** 2" = Ok (VInt 512)
    /\ (forall a b c : constant,
          inversion parse_fuel
            [TNum a; TDoubleStar; TNum b; TDoubleStar; TNum c]
          = Some (BinOp (Constant a) Pow (BinOp (Constant b) Pow (Constant c)),
                  []))
    /\ _eval h (BinOp (BinOp (Constant (CInt 2)) Pow (Constant (CInt 3)))
                  Pow (Constant (CInt 2))) = Ok (VInt 64).
Proof.
  intros h p Hp. split; [run_safe_eval|].
  split; [intros a b c|]; vm_compute; reflexivity.
Qed.

(** C6 at the parser [grammar_parse]. *)
Lemma power_is_right_associative_witness :
  conforms grammar_parse
  /\ forall h : Host, safe_eval h grammar_parse "2 ** 3 ** 2" = Ok (VInt 512).
Proof.
  split.
  - exact grammar_parse_conforms.
  - intro h.
    exact (proj1 (power_is_right_associative h grammar_parse
                    grammar_parse_conforms)).
Defined.

(** C8: multiplication binds tighter than addition, and parentheses
    override it.  "2 + 3 * 4" evaluates to 14 and "(2 + 3) * 4" to 20; the
    grouping is the same for any three literals. *)
Theorem multiplication_binds_tighter :
  forall (h : Host) (ast_parse : string -> string + tree),
    conforms ast_parse ->
    safe_eval h ast_parse "2 + 3 * 4" = Ok (VInt 14)
    /\ safe_eval h ast_parse "(2 + 3) * 4" = Ok (VInt 20)
    /\ (forall a b c : constant,
          inversion parse_fuel [TNum a; TPlus; TNum b; TStar; TNum c]
          = Some (BinOp (Constant a) Add (BinOp (Constant b) Mult (Constant c)),
                  [])
          /\ inversion parse_fuel
               [TLPar; TNum a; TPlus; TNum b; TRPar; TStar; TNum c]
             = Some (BinOp (BinOp (Constant a) Add (Constant b))
                       Mult (Constant c), [])).
Proof.
  intros h p Hp. split; [run_safe_eval|]. split; [run_safe_eval|].
  intros a b c. split; vm_compute; reflexivity.
Qed.

(** C8 at the parser [grammar_parse]. *)
Lemma multiplication_binds_tighter_witness :
  conforms grammar_parse
  /\ forall h : Host,
       safe_eval h grammar_parse "2 + 3 * 4" = Ok (VInt 14)
       /\ safe_eval h grammar_parse "(2 + 3) * 4" = Ok (VInt 20).
Proof.
  split.
  - exact grammar_parse_conforms.
  - intro h.
    destruct (multiplication_binds_tighter h grammar_parse
                grammar_parse_conforms) as (H1 & H2 & _).
    exact (conj H1 H2).
Defined.

(** *** The sign of a remainder *)

Lemma digits_size (p : positive) : digits2_pos p = Pos.size p.
Proof. induction p; simpl; congruence. Qed.

Lemma digits_log2 (p : positive) :
  Z.pos (digits2_pos p) = Z.log2 (Z.pos p) + 1.
Proof. destruct p; simpl; rewrite ?digits_size; lia. Qed.

Lemma digits_mono (p q : positive) :
  Z.pos p <= Z.pos q -> Z.pos (digits2_pos p) <= Z.pos (digits2_pos q).
Proof.
  intro H. rewrite !digits_log2.
  apply Z.add_le_mono_r, Z.log2_le_mono, H.
Qed.

Lemma iter_xO (p d : positive) :
  Z.pos (Pos.iter xO p d) = Z.pos p * 2 ^ Z.pos d.
Proof.
  induction d as [|d IH] using Pos.peano_ind.
  - simpl. lia.
  - rewrite Pos.iter_succ, Pos2Z.inj_xO, IH, Pos2Z.inj_succ, Z.pow_succ_r; lia.
Qed.

Lemma digits_iter_xO (p d : positive) :
  Z.pos (digits2_pos (Pos.iter xO p d)) = Z.pos (digits2_pos p) + Z.pos d.
Proof.
  induction d as [|d IH] using Pos.peano_ind.
  - simpl. lia.
  - rewrite Pos.iter_succ. simpl digits2_pos. rewrite Pos2Z.inj_succ, IH. lia.
Qed.

Lemma fexp_mono (a b : Z) : a <= b -> fexp prec emax a <= fexp prec emax b.
Proof. unfold fexp. lia. Qed.

Lemma shr_fexp_canonical (m : positive) (e : Z) :
  fexp prec emax (Z.pos (digits2_pos m) + e) = e ->
  shr_fexp prec emax (Z.pos m) e loc_Exact
  = ({| shr_m := Z.pos m; shr_r := false; shr_s := false |}, e).
Proof.
  intro H. unfold shr_fexp. cbn [Zdigits2 shr_record_of_loc].
  rewrite H, Z.sub_diag. reflexivity.
Qed.

Lemma binary_round_aux_canonical (s : bool) (m : positive) (e : Z) :
  fexp prec emax (Z.pos (digits2_pos m) + e) = e ->
  e <= emax - prec ->
  binary_round_aux prec emax s (Z.pos m) e loc_Exact = S754_finite s m e.
Proof.
  intros H He. unfold binary_round_aux.
  rewrite (shr_fexp_canonical m e H).
  cbn [shr_m loc_of_shr_record round_nearest_even].
  rewrite (shr_fexp_canonical m e H). cbn [shr_m].
  destruct (Z.leb_spec e (emax - prec)); [reflexivity | lia].
Qed.

(** Rounding a number that needs no rounding: when [p * 2^e] has no bit
    below the exponent its size asks for, [binary_round] only aligns it. *)
Lemma binary_round_exact (s : bool) (p : positive) (e : Z) :
  let e' := fexp prec emax (Z.pos (digits2_pos p) + e) in
  e' <= e -> e' <= emax - prec ->
  exists m, binary_round prec emax s p e = S754_finite s m e'
            /\ Z.pos m = Z.pos p * 2 ^ (e - e').
Proof.
  intros e' Hle Hmax.
  assert (Hc : fexp prec emax (Z.pos (digits2_pos p) + e) = e') by reflexivity.
  clearbody e'. unfold binary_round, shl_align. rewrite Hc.
  destruct (e' - e) as [|d|d] eqn:Ed; try lia.
  - assert (He : e' = e) by lia. rewrite He in Hc, Hmax |- *.
    exists p. split.
    + apply binary_round_aux_canonical; [exact Hc | exact Hmax].
    + rewrite Z.sub_diag. lia.
  - exists (Pos.iter xO p d). split.
    + apply binary_round_aux_canonical; [|exact Hmax].
      rewrite digits_iter_xO, <- Hc. f_equal. lia.
    + rewrite iter_xO. f_equal. f_equal. lia.
Qed.

Lemma cond_Zopp_pos_round (s : bool) (p : positive) (e : Z) (z : bool) :
  binary_normalize prec emax (cond_Zopp s (Z.pos p)) e z
  = binary_round prec emax s p e.
Proof. destruct s; reflexivity. Qed.

(** [fmod] of two finite floats is exact: a zero, or a float of the
    dividend's sign that is smaller than the divisor in magnitude. *)
Lemma fmod_finite (sx sy : bool) (mx my : positive) (ex ey : Z) :
  bounded prec emax mx ex = true ->
  bounded prec emax my ey = true ->
  fmod (S754_finite sx mx ex) (S754_finite sy my ey) = S754_zero sx
  \/ exists mz ez,
       fmod (S754_finite sx mx ex) (S754_finite sy my ey)
       = S754_finite sx mz ez
       /\ ez <= ey
       /\ Z.pos mz < Z.pos my * 2 ^ (ey - ez).
Proof.
  unfold bounded, canonical_mantissa. intros Hx Hy.
  apply andb_prop in Hx, Hy. destruct Hx as [Cx Bx], Hy as [Cy By].
  apply Z.eqb_eq in Cx, Cy. apply Z.leb_le in Bx, By.
  cbn [fmod].
  set (e := Z.min ex ey).
  assert (He : e <= ex /\ e <= ey) by (unfold e; lia).
  rewrite !Z.shiftl_mul_pow2 by lia.
  set (a := Z.pos mx * 2 ^ (ex - e)).
  set (b := Z.pos my * 2 ^ (ey - e)).
  assert (Ha : 0 < a)
    by (unfold a; apply Z.mul_pos_pos; [lia | apply Z.pow_pos_nonneg; lia]).
  assert (Hb : 0 < b)
    by (unfold b; apply Z.mul_pos_pos; [lia | apply Z.pow_pos_nonneg; lia]).
  pose proof (Z.rem_bound_pos a b (Z.lt_le_incl _ _ Ha) Hb) as Hr.
  assert (Hra : Z.rem a b <= a) by (apply Z.rem_le; lia).
  destruct (Z.rem a b) as [|rp|rp] eqn:Er; [|clear Er|lia].
  { left. destruct sx; reflexivity. }
  right. rewrite cond_Zopp_pos_round.
  assert (Hd : fexp prec emax (Z.pos (digits2_pos rp) + e) <= e).
  { destruct (Z.le_gt_cases ey ex) as [Hle|Hgt].
    - assert (H : e = ey) by (unfold e; lia).
      assert (b = Z.pos my)
        by (unfold b; replace (ey - e) with 0 by lia; lia).
      rewrite H at 2. rewrite <- Cy, H. apply fexp_mono.
      apply Z.add_le_mono_r, digits_mono. lia.
    - assert (H : e = ex) by (unfold e; lia).
      assert (a = Z.pos mx)
        by (unfold a; replace (ex - e) with 0 by lia; lia).
      rewrite H at 2. rewrite <- Cx, H. apply fexp_mono.
      apply Z.add_le_mono_r, digits_mono. lia. }
  destruct (binary_round_exact sx rp e Hd) as (mz & Em & Hm); [lia|].
  exists mz, (fexp prec emax (Z.pos (digits2_pos rp) + e)).
  split; [exact Em|]. split; [lia|].
  rewrite Hm.
  set (e' := fexp prec emax (Z.pos (digits2_pos rp) + e)) in *.
  replace (ey - e') with ((ey - e) + (e - e')) by lia.
  rewrite Z.pow_add_r by lia.
  rewrite Z.mul_assoc. fold b.
  apply Z.mul_lt_mono_pos_r; [apply Z.pow_pos_nonneg; lia | lia].
Qed.

Lemma shr_1_nonneg (r : shr_record) : 0 <= shr_m r -> 0 <= shr_m (shr_1 r).
Proof.
  destruct r as [m r s]. cbn [shr_m]. intro H.
  destruct m as [|[p|p|]|p]; cbn; lia.
Qed.

Lemma iter_pos_nonneg (n : positive) (r : shr_record) :
  0 <= shr_m r -> 0 <= shr_m (iter_pos shr_1 n r).
Proof.
  revert r. induction n as [n IH|n IH|]; intros r H; cbn [iter_pos].
  - apply IH, IH, shr_1_nonneg, H.
  - apply IH, IH, H.
  - apply shr_1_nonneg, H.
Qed.

Lemma shr_fexp_nonneg (m e : Z) (l : location) :
  0 <= m -> 0 <= shr_m (fst (shr_fexp prec emax m e l)).
Proof.
  intro H. unfold shr_fexp, shr.
  assert (H0 : 0 <= shr_m (shr_record_of_loc m l))
    by (destruct l as [|[]]; exact H).
  destruct (fexp prec emax (Zdigits2 m + e) - e); cbn [fst]; auto.
  apply iter_pos_nonneg, H0.
Qed.

Lemma round_nearest_even_nonneg (m : Z) (l : location) :
  0 <= m -> 0 <= round_nearest_even m l.
Proof.
  intro H. destruct l as [|[]]; cbn [round_nearest_even]; try lia.
  destruct (Z.even m); lia.
Qed.

(** Rounding a number that is not negative gives a float of the sign asked
    for, never a NaN. *)
Lemma binary_round_aux_has_sign (s : bool) (m e : Z) (l : location) :
  0 <= m -> has_sign s (binary_round_aux prec emax s m e l).
Proof.
  intro H. unfold binary_round_aux.
  pose proof (shr_fexp_nonneg m e l H) as H1.
  destruct (shr_fexp prec emax m e l) as [mrs' e']. cbn [fst] in H1.
  pose proof (shr_fexp_nonneg _ e' loc_Exact
                (round_nearest_even_nonneg _ (loc_of_shr_record mrs') H1))
    as H2.
  destruct (shr_fexp prec emax _ e' loc_Exact) as [mrs'' e''].
  cbn [fst] in H2.
  destruct (shr_m mrs''); [reflexivity | | lia].
  destruct (e'' <=? emax - prec); reflexivity.
Qed.

Lemma binary_round_has_sign (s : bool) (m : positive) (e : Z) :
  has_sign s (binary_round prec emax s m e).
Proof.
  unfold binary_round. destruct (shl_align _ _ _).
  apply binary_round_aux_has_sign. lia.
Qed.

Lemma shl_align_value (m : positive) (e e' : Z) :
  e' <= e ->
  Z.pos (fst (shl_align m e e')) = Z.pos m * 2 ^ (e - e').
Proof.
  intro H. unfold shl_align.
  destruct (e' - e) as [|d|d] eqn:E; cbn [fst]; try lia.
  - replace (e - e') with 0 by lia. lia.
  - rewrite iter_xO. f_equal. f_equal. lia.
Qed.

(** The sum of two finite floats of opposite signs has the sign of the
    larger one. *)
Lemma add_opposite (sx sy : bool) (mx my : positive) (ex ey : Z) :
  sx <> sy -> ex <= ey ->
  Z.pos mx < Z.pos my * 2 ^ (ey - ex) ->
  has_sign sy (add (S754_finite sx mx ex) (S754_finite sy my ey)).
Proof.
  intros Hs He Hlt. unfold add. cbn [SFadd].
  rewrite Z.min_l by exact He.
  rewrite (shl_align_value mx ex ex), (shl_align_value my ey ex) by lia.
  rewrite Z.sub_diag, Z.pow_0_r, Z.mul_1_r.
  set (B := Z.pos my * 2 ^ (ey - ex)) in *.
  destruct sx, sy; try (exfalso; apply Hs; reflexivity);
    cbn [cond_Zopp].
  - destruct (- Z.pos mx + B) eqn:E; try lia.
    apply binary_round_has_sign.
  - destruct (Z.pos mx + - B) eqn:E; try lia.
    apply binary_round_has_sign.
Qed.

(** [x % y] on floats, for a finite [x] and a finite [y] that is not
    zero: the result carries the sign of [y]. *)
Lemma rem_follows_divisor (x : float) (sy : bool) (my : positive) (ey : Z) :
  valid_binary prec emax x = true ->
  bounded prec emax my ey = true ->
  is_finite x = true ->
  has_sign sy (rem x (S754_finite sy my ey)).
Proof.
  intros Vx Vy Fx. destruct x as [sx|sx| |sx mx ex]; try discriminate.
  - reflexivity.
  - unfold rem.
    destruct (fmod_finite sx sy mx my ex ey Vx Vy)
      as [->|(mz & ez & -> & Hez & Hlt)].
    + reflexivity.
    + cbn [is_zero is_neg].
      destruct (Bool.eqb sy sx) eqn:E.
      * apply Bool.eqb_prop in E. symmetry. exact E.
      * apply add_opposite; try assumption.
        intro H. subst. rewrite Bool.eqb_reflx in E. discriminate.
Qed.

Lemma rem_by_infinity (x : float) (sy : bool) :
  is_finite x = true -> has_sign sy (rem x (S754_infinity sy)).
Proof.
  destruct x as [sx|sx| |sx mx ex]; try discriminate; intros _.
  - reflexivity.
  - unfold rem. cbn [fmod is_zero is_neg].
    destruct (Bool.eqb sy sx) eqn:E.
    + apply Bool.eqb_prop in E. symmetry. exact E.
    + reflexivity.
Qed.

(** With an infinite dividend, or a NaN on either side, the remainder is a
    NaN. *)
Lemma rem_nan (x y : float) :
  is_zero y = false ->
  is_finite x = false \/ y = S754_nan ->
  rem x y = S754_nan.
Proof.
  intros Zy [Fx| ->].
  - destruct x as [sx|sx| |sx mx ex]; try discriminate;
      destruct y as [sy|sy| |sy my ey]; try discriminate;
      try reflexivity; destruct sy; reflexivity.
  - destruct x as [sx|sx| |sx mx ex]; reflexivity.
Qed.

(** [%] with a float among its operands, on a finite dividend and a
    divisor that is neither zero nor a NaN. *)
Lemma float_mod_follows_divisor (l r : value) (x y : float) :
  to_float l = Ok x -> to_float r = Ok y ->
  is_float l || is_float r = true ->
  valid_binary prec emax x = true -> valid_binary prec emax y = true ->
  is_finite x = true -> is_zero y = false -> y <> S754_nan ->
  exists f, py_mod l r = Ok (VFloat f) /\ has_sign (is_neg y) f.
Proof.
  intros Hl Hr Hf Vx Vy Fx Zy Ny. exists (rem x y). split.
  - assert (Cl : is_complex l = false)
      by (destruct l; try reflexivity; discriminate).
    assert (Cr : is_complex r = false)
      by (destruct r; try reflexivity; discriminate).
    unfold py_mod, coerce. rewrite Cl, Cr. cbn [orb].
    destruct (as_int l) eqn:El, (as_int r) eqn:Er;
      try (rewrite Hl, Hr; cbn [bind]; rewrite Zy; reflexivity).
    destruct l, r; discriminate.
  - destruct y as [sy|sy| |sy my ey]; try discriminate.
    + apply rem_by_infinity, Fx.
    + contradiction Ny. reflexivity.
    + apply rem_follows_divisor; assumption.
Qed.

(** C7: [%] is the floor remainder, whose sign follows the divisor.
    "-7 % 3" evaluates to 2; on integers [a % b] is [a - b * floor(a / b)],
    in [[0, b)] for a positive divisor and in [(b, 0]] for a negative one.
    With a float among the operands, the remainder of a finite dividend by
    a divisor that is neither zero nor a NaN carries the sign of the
    divisor, a zero remainder included: -7.0 % 3 is 2.0, 7 % -3.0 is -2.0,
    7.0 % 2.0 is 1.0, and 0.0 % -3 and 6.0 % -3 are -0.0 where -6.0 % 3 is
    0.0.  The remainder of an infinite dividend, or with a NaN on either
    side, is a NaN, which has no sign. *)
Theorem modulo_sign_follows_divisor :
  forall (h : Host) (ast_parse : string -> string + tree),
    conforms ast_parse ->
    safe_eval h ast_parse "-7 % 3" = Ok (VInt 2)
    /\ (forall a b : Z,
          b <> 0 ->
          py_mod (VInt a) (VInt b) = Ok (VInt (a mod b))
          /\ a mod b = a - b * (a / b)
          /\ (0 < b -> 0 <= a mod b < b)
          /\ (b < 0 -> b < a mod b <= 0))
    /\ py_mod (VFloat (of_Z (-7))) (VInt 3) = Ok (VFloat (of_Z 2))
    /\ py_mod (VInt 7) (VFloat (of_Z (-3))) = Ok (VFloat (of_Z (-2)))
    /\ (forall (l r : value) (x y : float),
          to_float l = Ok x -> to_float r = Ok y ->
          is_float l || is_float r = true ->
          valid_binary prec emax x = true ->
          valid_binary prec emax y = true ->
          is_finite x = true -> is_zero y = false -> y <> S754_nan ->
          exists f, py_mod l r = Ok (VFloat f) /\ has_sign (is_neg y) f)
    /\ (forall x y : float,
          is_zero y = false ->
          is_finite x = false \/ y = S754_nan ->
          py_mod (VFloat x) (VFloat y) = Ok (VFloat S754_nan))
    /\ py_mod (VFloat (of_Z 7)) (VFloat (of_Z 2)) = Ok (VFloat (of_Z 1))
    /\ py_mod (VFloat (S754_zero false)) (VInt (-3))
       = Ok (VFloat (S754_zero true))
    /\ py_mod (VFloat (of_Z 6)) (VInt (-3)) = Ok (VFloat (S754_zero true))
    /\ py_mod (VFloat (of_Z (-6))) (VInt 3) = Ok (VFloat (S754_zero false)).
Proof.
  intros h p Hp. split; [run_safe_eval|]. split.
  - intros a b Hb. split.
    + unfold py_mod, coerce. simpl.
      destruct (Z.eqb_spec b 0) as [E|_]; [contradiction | reflexivity].
    + split; [pose proof (Z.div_mod a b Hb); lia|].
      split; intro Hs.
      * apply Z.mod_pos_bound; assumption.
      * apply Z.mod_neg_bound; assumption.
  - split; [vm_compute; reflexivity|].
    split; [vm_compute; reflexivity|].
    split; [exact float_mod_follows_divisor|].
    split.
    { intros x y Zy H. unfold py_mod, coerce.
      cbn [is_complex orb as_int to_float bind]. rewrite Zy.
      rewrite (rem_nan x y Zy H). reflexivity. }
    repeat split; vm_compute; reflexivity.
Qed.

(** C7 at the parser [grammar_parse], with -7 and 3, and with the floats
    0.0 and -3.0. *)
Lemma modulo_sign_follows_divisor_witness :
  conforms grammar_parse
  /\ (-7) mod 3 = 2
  /\ forall h : Host,
       safe_eval h grammar_parse "-7 % 3" = Ok (VInt 2)
       /\ exists f,
            py_mod (VFloat (S754_zero false)) (VFloat (of_Z (-3)))
            = Ok (VFloat f)
            /\ has_sign true f.
Proof.
  split; [exact grammar_parse_conforms|].
  split; [reflexivity|].
  intro h.
  destruct (modulo_sign_follows_divisor h grammar_parse
              grammar_parse_conforms) as (H1 & _ & _ & _ & H & _).
  split; [exact H1|].
  apply (H (VFloat (S754_zero false)) (VFloat (of_Z (-3)))
           (S754_zero false) (of_Z (-3)));
    solve [reflexivity | vm_compute; reflexivity | discriminate].
Defined.

(** C4, at its failing input: the text "True" parses to a constant holding
    a boolean, [_is_number] lets it through, and [safe_eval] returns the
    boolean, which the command-line path prints; "True + 1" evaluates
    to 2. *)
Theorem boolean_literal_is_evaluated :
  forall (h : Host) (ast_parse : string -> string + tree),
    conforms ast_parse ->
    python_expr "True" = Parses (Expression (Constant (CBool true)))
    /\ _is_number (Constant (CBool true)) = Ok (VBool true)
    /\ safe_eval h ast_parse "True" = Ok (VBool true)
    /\ safe_eval h ast_parse "True + 1" = Ok (VInt 2)
    /\ main_argv h ast_parse ["True"] = (Answer (VBool true), 0).
Proof.
  intros h p Hp.
  assert (E : safe_eval h p "True" = Ok (VBool true)) by run_safe_eval.
  split; [vm_compute; reflexivity|].
  split; [reflexivity|].
  split; [exact E|].
  split; [run_safe_eval|].
  unfold main_argv. simpl String.concat. rewrite E. reflexivity.
Qed.

(** C4 at the parser [grammar_parse]. *)
Lemma boolean_literal_is_evaluated_witness :
  conforms grammar_parse
  /\ forall h : Host, safe_eval h grammar_parse "True" = Ok (VBool true).
Proof.
  split; [exact grammar_parse_conforms|].
  intro h.
  destruct (boolean_literal_is_evaluated h grammar_parse
              grammar_parse_conforms) as (_ & _ & H & _).
  exact H.
Defined.

(** *** What the arithmetic can raise *)

(** A property of results that [OverflowError] and [TypeError] have passes
    from the three branches of [coerce] to [coerce]. *)
Lemma coerce_ind (P : result value -> Prop)
    (on_int : Z -> Z -> result value)
    (on_float : float -> float -> result value)
    (on_complex : complex -> complex -> result value) :
  P (Raise OverflowError) ->
  P (Raise TypeError) ->
  (forall a b, P (on_int a b)) ->
  (forall a b, P (on_float a b)) ->
  (forall a b, P (on_complex a b)) ->
  forall l r, P (coerce on_int on_float on_complex l r).
Proof.
  intros Hov Hty Hi Hf Hc l r. unfold coerce.
  assert (Hconv : forall (v : value) (k : float -> result value),
             (forall f, P (k f)) -> P (bind (to_float v) k)).
  { intros v k Hk. destruct v; simpl; unfold int_to_float;
      try destruct (is_finite _); simpl; auto. }
  assert (Hcplx : forall (v : value) (k : complex -> result value),
             (forall c, P (k c)) -> P (bind (to_complex v) k)).
  { intros v k Hk. destruct v; simpl; auto; unfold int_to_float;
      try destruct (is_finite _); simpl; auto. }
  destruct (as_int l), (as_int r); auto;
    destruct (is_complex l || is_complex r);
    solve [ apply Hcplx; intro; apply Hcplx; intro; apply Hc
          | apply Hconv; intro; apply Hconv; intro; apply Hf ].
Qed.

Lemma of_pow_not_syntax (r : arith_exn + pow_value) :
  is_syntax_error (of_pow r) = false.
Proof. destruct r as [[]|[]]; reflexivity. Qed.

Lemma int_true_divide_not_syntax (a b : Z) :
  is_syntax_error (int_true_divide a b) = false.
Proof.
  unfold int_true_divide.
  destruct b, a; try reflexivity; destruct (is_finite _); reflexivity.
Qed.

Ltac coerce_cases :=
  apply coerce_ind; try reflexivity; intros.

Lemma binary_not_syntax (h : Host) (l r : value) :
  is_syntax_error (py_add h l r) = false
  /\ is_syntax_error (py_sub h l r) = false
  /\ is_syntax_error (py_mul h l r) = false
  /\ is_syntax_error (py_truediv h l r) = false
  /\ is_syntax_error (py_mod l r) = false
  /\ is_syntax_error (py_pow h l r) = false.
Proof.
  repeat split.
  - unfold py_add. coerce_cases.
  - unfold py_sub. coerce_cases.
  - unfold py_mul. coerce_cases.
  - unfold py_truediv. coerce_cases.
    + apply int_true_divide_not_syntax.
    + destruct (is_zero b); reflexivity.
    + destruct (complex_is_zero b); reflexivity.
  - unfold py_mod. destruct (is_complex l || is_complex r); [reflexivity|].
    coerce_cases.
    + destruct (b =? 0); reflexivity.
    + destruct (is_zero b); reflexivity.
  - unfold py_pow. coerce_cases.
    + destruct (0 <=? b); [reflexivity|].
      unfold int_to_float.
      destruct (is_finite (of_Z a)); [|reflexivity].
      destruct (is_finite (of_Z b)); [|reflexivity].
      apply of_pow_not_syntax.
    + apply of_pow_not_syntax.
    + destruct (complex_pow h a b) as [[]|]; reflexivity.
Qed.

(** Induction along the recursion of [_eval]: through the operands of
    [BinOp] and [UnaryOp], every other node being a leaf. *)
Lemma operation_ind (P : expr -> Prop) :
  (forall l op r, P l -> P r -> P (BinOp l op r)) ->
  (forall op x, P x -> P (UnaryOp op x)) ->
  (forall e, is_operation e = false -> P e) ->
  forall e, P e.
Proof.
  intros Hb Hu Hl. fix IH 1. intro e.
  destruct e; try (apply Hl; reflexivity).
  - apply Hb; apply IH.
  - apply Hu; apply IH.
Qed.

Lemma eval_leaf (h : Host) (e : expr) :
  is_operation e = false -> _eval h e = _is_number e.
Proof. destruct e; try reflexivity; discriminate. Qed.

Lemma is_number_not_syntax (e : expr) :
  is_syntax_error (_is_number e) = false.
Proof.
  destruct e; try reflexivity.
  match goal with c : constant |- _ => destruct c end; reflexivity.
Qed.

Lemma eval_not_syntax (h : Host) (e : expr) :
  is_syntax_error (_eval h e) = false.
Proof.
  induction e as [l op r IHl IHr | op x IHx | e He] using operation_ind.
  - simpl. destruct (_eval h l) as [vl|]; [|exact IHl].
    destruct (_eval h r) as [vr|]; [|exact IHr].
    simpl. destruct (binary_not_syntax h vl vr) as (?&?&?&?&?&?).
    destruct op; auto.
  - simpl. destruct (_eval h x) as [v|]; [|exact IHx].
    destruct op; reflexivity.
  - rewrite eval_leaf by assumption. apply is_number_not_syntax.
Qed.

(** C9: no SyntaxError crosses the boundary of [safe_eval].  A parse that
    fails becomes a ValueError whose message begins with "Syntax error: ",
    nothing else in [safe_eval] raises a SyntaxError, and so neither prompt
    loop ever prints "Invalid expression: syntax error". *)
Theorem safe_eval_never_raises_syntax_error :
  forall (h : Host) (ast_parse : string -> string + tree) (s : string),
    (forall msg, safe_eval h ast_parse s <> Raise (SyntaxError msg))
    /\ match ast_parse s with
       | inl msg =>
           safe_eval h ast_parse s
           = Raise (ValueError ("Syntax error: " ++ msg))
       | inr _ => True
       end
    /\ report (safe_eval h ast_parse s) <> InvalidSyntax
    /\ repl_line h ast_parse s <> Print InvalidSyntax
    /\ main_line h ast_parse s <> Print InvalidSyntax.
Proof.
  intros h p s.
  assert (Hs : forall t, is_syntax_error (safe_eval h p t) = false).
  { intro t. unfold safe_eval. destruct (p t) as [msg|[body]];
      [reflexivity | apply eval_not_syntax]. }
  assert (Hr : forall t, report (safe_eval h p t) <> InvalidSyntax).
  { intro t. specialize (Hs t).
    destruct (safe_eval h p t) as [v|[]]; simpl in *; congruence. }
  split.
  { intros msg E. specialize (Hs s). rewrite E in Hs. discriminate. }
  split.
  { unfold safe_eval. destruct (p s); [reflexivity | exact I]. }
  split; [apply Hr|].
  assert (Ht : forall t, tried h p t <> InvalidSyntax).
  { intro t. unfold tried. specialize (Hs t).
    destruct (safe_eval h p t) as [[z|b|f|c]|[]]; simpl in *;
      try congruence.
    destruct (exceeds_str_limit h z); discriminate. }
  unfold repl_line, main_line, prompt_line.
  destruct (str_is_empty latin1 (str_strip latin1 s)); [split; discriminate|].
  destruct (leaving latin1 (str_strip latin1 s)); [split; discriminate|].
  destruct (str_any_alpha latin1 (str_strip latin1 s));
    [split; discriminate|].
  split; intro E; injection E; apply Ht.
Qed.

(** *** Trees the evaluator rejects *)

(** Evaluating a tree that holds, at any depth, a node [_eval] has no case
    for ends in an exception: its own ValueError, or the exception of an
    operand evaluated before the node is reached. *)
Lemma eval_fails_on (h : Host) (p : expr -> bool) :
  (forall e, p e = true -> rejected_node e = true) ->
  forall e, has_node p e = true -> is_ok (_eval h e) = false.
Proof.
  intros Hp e.
  induction e as [l op r IHl IHr | op x IHx | e He] using operation_ind;
    intro H.
  - simpl in H. simpl.
    destruct (_eval h l) as [vl|]; [|reflexivity].
    destruct (_eval h r) as [vr|]; [|reflexivity].
    destruct (has_node p l); [discriminate (IHl eq_refl)|].
    destruct (has_node p r); [discriminate (IHr eq_refl)|].
    rewrite !orb_false_r in H. apply Hp in H.
    unfold rejected_node in H. simpl in H |- *.
    destruct op; solve [reflexivity | discriminate].
  - simpl in H. simpl.
    destruct (_eval h x) as [v|]; [|reflexivity].
    destruct (has_node p x); [discriminate (IHx eq_refl)|].
    rewrite orb_false_r in H. apply Hp in H.
    unfold rejected_node in H. simpl in H |- *.
    destruct op; solve [reflexivity | discriminate].
  - rewrite eval_leaf by assumption.
    destruct e; try discriminate He; try reflexivity.
    simpl in H. rewrite orb_false_r in H. apply Hp in H.
    match goal with c : constant |- _ => destruct c end;
      solve [reflexivity | discriminate].
Qed.





(** C10, as amended: a tree holding a binary operator outside
    [+ - * / % **] or a unary operator outside [+ -] never evaluates to a
    value.  The parser accepts such operators.  [_eval] evaluates the
    operands of every operation, the left one first, before it looks at the
    operator: an operation whose operands (whose operand) have evaluated
    raises the ValueError "Unsupported binary operator" ("Unsupported unary
    operator") if its operator is not supported, and an operation one of
    whose operands raises, raises the exception of the first that does,
    whatever its operator.  So "7 // 2", "1 << 2", "8 >> 1", "6 | 1",
    "6 & 3", "6 ^ 3", "2 @ 3" raise the first ValueError and "~5", "not 1"
    the second, while "(1/0) // 2" and "1/0 + 7 // 2" raise
    ZeroDivisionError and "[1] + 7 // 2" raises the ValueError "Expected a
    numeric literal". *)
Theorem unsupported_operator_never_evaluates :
  forall (h : Host) (ast_parse : string -> string + tree),
    conforms ast_parse ->
    (forall s t,
        ast_parse s = inr t ->
        tree_has unsupported_operator t = true ->
        exists x, safe_eval h ast_parse s = Raise x)
    /\ (forall l op r vl vr,
          supported_binary op = false ->
          _eval h l = Ok vl -> _eval h r = Ok vr ->
          _eval h (BinOp l op r)
          = Raise (ValueError "Unsupported binary operator"))
    /\ (forall op x v,
          supported_unary op = false ->
          _eval h x = Ok v ->
          _eval h (UnaryOp op x)
          = Raise (ValueError "Unsupported unary operator"))
    /\ (forall l op r x,
          _eval h l = Raise x -> _eval h (BinOp l op r) = Raise x)
    /\ (forall l op r vl x,
          _eval h l = Ok vl -> _eval h r = Raise x ->
          _eval h (BinOp l op r) = Raise x)
    /\ (forall op e x,
          _eval h e = Raise x -> _eval h (UnaryOp op e) = Raise x)
    /\ python_expr "7 // 2"
       = Parses (Expression
                   (BinOp (Constant (CInt 7)) FloorDiv (Constant (CInt 2))))
    /\ Forall (fun s => safe_eval h ast_parse s
                        = Raise (ValueError "Unsupported binary operator"))
         ["7 // 2"; "1 << 2"; "8 >> 1"; "6 | 1"; "6 & 3"; "6 ^ 3"; "2 @ 3"]
    /\ Forall (fun s => safe_eval h ast_parse s
                        = Raise (ValueError "Unsupported unary operator"))
         ["~5"; "not 1"]
    /\ Forall (fun s => safe_eval h ast_parse s = Raise ZeroDivisionError)
         ["(1/0) // 2"; "1/0 + 7 // 2"]
    /\ safe_eval h ast_parse "[1] + 7 // 2"
       = Raise (ValueError "Expected a numeric literal").
Proof.
  intros h p Hp. split.
  { intros s [body] Hs Ht. unfold safe_eval. rewrite Hs. simpl in *.
    assert (Hsub : forall e, unsupported_operator e = true ->
                             rejected_node e = true).
    { intros e He. unfold rejected_node. rewrite He. apply orb_true_r. }
    pose proof (eval_fails_on h unsupported_operator Hsub body Ht) as Hf.
    destruct (_eval h body) as [v|x]; [discriminate|].
    exists x. reflexivity. }
  split.
  { intros l op r vl vr Hop Hl Hr. simpl. rewrite Hl, Hr. simpl.
    destruct op; solve [reflexivity | discriminate]. }
  split.
  { intros op x v Hop Hx. simpl. rewrite Hx. simpl.
    destruct op; solve [reflexivity | discriminate]. }
  split; [intros l op r x Hl; simpl; rewrite Hl; reflexivity|].
  split; [intros l op r vl x Hl Hr; simpl; rewrite Hl, Hr; reflexivity|].
  split; [intros op e x He; simpl; rewrite He; reflexivity|].
  split; [vm_compute; reflexivity|].
  split; [repeat (constructor; [run_safe_eval|]); constructor|].
  split; [repeat (constructor; [run_safe_eval|]); constructor|].
  split; [repeat (constructor; [run_safe_eval|]); constructor|].
  run_safe_eval.
Qed.

(** C10 at the parser [grammar_parse]. *)
Lemma unsupported_operator_never_evaluates_witness :
  conforms grammar_parse
  /\ forall h : Host,
       safe_eval h grammar_parse "7 // 2"
       = Raise (ValueError "Unsupported binary operator").
Proof.
  split; [exact grammar_parse_conforms|].
  intro h.
  destruct (unsupported_operator_never_evaluates h grammar_parse
              grammar_parse_conforms) as (_ & _ & _ & _ & _ & _ & _ & H & _).
  exact (Forall_inv H).
Defined.

(** C10 fails as stated on "(1/0) // 2": the tree holds [//], yet the
    operands are evaluated before the operator is looked at, and what
    [safe_eval] raises is the ZeroDivisionError of the left one. *)
Lemma operand_error_precedes_operator_check :
  python_expr "(1/0) // 2"
  = Parses (Expression
              (BinOp (BinOp (Constant (CInt 1)) Div (Constant (CInt 0)))
                 FloorDiv (Constant (CInt 2))))
  /\ (forall (h : Host) (ast_parse : string -> string + tree),
        conforms ast_parse ->
        safe_eval h ast_parse "(1/0) // 2" = Raise ZeroDivisionError
        /\ is_value_error (safe_eval h ast_parse "(1/0) // 2") = false
        /\ repl_line h ast_parse "(1/0) // 2" = Print MathError).
Proof.
  split; [vm_compute; reflexivity|].
  intros h p Hp.
  assert (E : safe_eval h p "(1/0) // 2" = Raise ZeroDivisionError)
    by run_safe_eval.
  split; [exact E|]. split; [rewrite E; reflexivity|].
  destruct (prompt_evaluates h p "(1/0) // 2") as [-> _]; try reflexivity.
  unfold tried. change (strip "(1/0) // 2") with "(1/0) // 2". rewrite E.
  reflexivity.
Qed.

(** *** The letter check of the prompts *)

(** C2, as amended: the check for letters stands in the two prompt loops,
    not in the function they call.  A line that holds an alphabetic
    character (and, once stripped, is neither empty nor [quit]/[exit]) is
    answered "Only numbers and operators are allowed" by the body of the
    loops, whatever [str.strip], [str.lower] and [str.isalpha] make of its
    characters and whatever the [try] statement would have printed for it:
    [safe_eval] is not called.  In a session both loops print the prompt
    and the refusal and are at the prompt again, with no question asked.
    "1e3" is such a line, and so is "2 + e" with an acute accent on the
    letter. *)
Theorem prompt_rejects_letters_before_parsing :
  (forall (T : Type) (str : Str T) (tries : T -> printed)
          (on_blank : action) (raw : T),
      str_is_empty str (str_strip str raw) = false ->
      leaving str (str_strip str raw) = false ->
      str_any_alpha str (str_strip str raw) = true ->
      prompt_line str tries on_blank raw = Print OnlyNumbers)
  /\ (forall (T L : Type) (str : Str T) (in_repl in_main : T -> L)
             (raw : T) (rest : list (event_of T)),
        str_is_empty str (str_strip str raw) = false ->
        leaving str (str_strip str raw) = false ->
        str_any_alpha str (str_strip str raw) = true ->
        repl_loop str in_repl AtPrompt (Line raw :: rest)
        = emit AskExpression
            (emit Refused (repl_loop str in_repl AtPrompt rest))
        /\ main_loop str in_repl in_main AtPrompt (Line raw :: rest)
           = emit AskExpression
               (emit Refused (main_loop str in_repl in_main AtPrompt rest)))
  /\ (forall (h : Host) (ast_parse : string -> string + tree),
        repl_line h ast_parse "1e3" = Print OnlyNumbers
        /\ main_line h ast_parse "1e3" = Print OnlyNumbers
        /\ repl_line h ast_parse ("2 + " ++ e_acute) = Print OnlyNumbers
        /\ main_line h ast_parse ("2 + " ++ e_acute) = Print OnlyNumbers).
Proof.
  split; [|split].
  - intros T str tries on_blank raw Hne Hq Ha. unfold prompt_line.
    rewrite Hne, Hq, Ha. reflexivity.
  - intros T L str in_repl in_main raw rest Hne Hq Ha.
    cbn [repl_loop main_loop]. rewrite Hne, Hq, Ha. split; reflexivity.
  - intros h p. repeat split.
Qed.

(** C2 at the line 1e3, on the texts of [string]. *)
Lemma prompt_rejects_letters_before_parsing_witness :
  str_is_empty latin1 (str_strip latin1 "1e3") = false
  /\ leaving latin1 (str_strip latin1 "1e3") = false
  /\ str_any_alpha latin1 (str_strip latin1 "1e3") = true
  /\ forall (h : Host) (ast_parse : string -> string + tree),
       prompt_line latin1 (tried h ast_parse) Again "1e3" = Print OnlyNumbers
       /\ prompt_line latin1 (tried h ast_parse) OpenRepl "1e3"
          = Print OnlyNumbers.
Proof.
  split; [reflexivity|]. split; [reflexivity|]. split; [reflexivity|].
  intros h p.
  split;
    apply (proj1 prompt_rejects_letters_before_parsing string latin1
             (tried h p) _ "1e3"); reflexivity.
Defined.

(** C2 fails as stated on "1e3": the function the callers use is
    [safe_eval], which looks for no letter; it parses the text and returns
    1000.0, and the command-line path prints that answer and exits with
    status 0. *)
Lemma safe_eval_accepts_letters :
  any_alpha "1e3" = true
  /\ python_expr "1e3" = Parses (Expression (Constant (CFloat (of_Z 1000))))
  /\ (forall (h : Host) (ast_parse : string -> string + tree),
        conforms ast_parse ->
        safe_eval h ast_parse "1e3" = Ok (VFloat (of_Z 1000))
        /\ main_argv h ast_parse ["1e3"] = (Answer (VFloat (of_Z 1000)), 0)).
Proof.
  split; [reflexivity|]. split; [vm_compute; reflexivity|].
  intros h p Hp.
  assert (E : safe_eval h p "1e3" = Ok (VFloat (of_Z 1000)))
    by run_safe_eval.
  split; [exact E|].
  unfold main_argv. simpl String.concat. rewrite E. reflexivity.
Qed.

(** *** Division and remainder by zero *)

Lemma zero_divisor_never_returns (h : Host) (l r : value) :
  value_is_zero r = true ->
  is_ok (py_truediv h l r) = false /\ is_ok (py_mod l r) = false.
Proof.
  intro Hz.
  assert (Hr : r = VInt 0 \/ r = VBool false
               \/ (exists s, r = VFloat (S754_zero s))
               \/ (exists c, r = VComplex c /\ complex_is_zero c = true)).
  { destruct r as [z|b|f|c]; simpl in Hz.
    - left. apply Z.eqb_eq in Hz. now subst.
    - right; left. now destruct b.
    - right; right; left. destruct f; try discriminate. now exists s.
    - right; right; right. now exists c. }
  unfold py_truediv, py_mod, coerce, to_complex, to_float, int_to_float.
  destruct Hr as [->|[->|[[s ->]|[c [-> Hc]]]]];
    destruct l as [a|b|f|d]; simpl;
    try rewrite Hc;
    repeat match goal with
           | |- context [is_finite ?x] => destruct (is_finite x)
           end;
    simpl; try rewrite Hc; split; reflexivity.
Qed.

(** C3, as amended: with a right operand that is exactly zero, [/] and [%]
    never return a value.  They raise ZeroDivisionError when both operands
    are integers, and when the left operand is a float or an integer that
    converts to a float and the right one is real; "5 / 0" and "5 % 0" do.
    (An integer too large for a float, divided by a float zero, fails in
    its conversion, and [%] has no meaning on a complex operand.) *)
Theorem zero_divisor_raises :
  forall (h : Host) (ast_parse : string -> string + tree) (l r : value),
    conforms ast_parse ->
    value_is_zero r = true ->
    is_ok (py_truediv h l r) = false
    /\ is_ok (py_mod l r) = false
    /\ (is_complex l = false ->
        is_complex r = false ->
        (is_integer l && is_integer r) || fits_float l = true ->
        py_truediv h l r = Raise ZeroDivisionError
        /\ py_mod l r = Raise ZeroDivisionError)
    /\ safe_eval h ast_parse "5 / 0" = Raise ZeroDivisionError
    /\ safe_eval h ast_parse "5 % 0" = Raise ZeroDivisionError.
Proof.
  intros h p l r Hp Hz.
  destruct (zero_divisor_never_returns h l r Hz) as [Hd Hm].
  split; [exact Hd|]. split; [exact Hm|].
  split; [|split; run_safe_eval].
  intros Hl Hr Hfit.
  assert (Hr' : r = VInt 0 \/ r = VBool false
                \/ exists s, r = VFloat (S754_zero s)).
  { destruct r as [z|b|f|c]; simpl in Hz, Hr.
    - left. apply Z.eqb_eq in Hz. now subst.
    - right; left. now destruct b.
    - right; right. destruct f; try discriminate. now exists s.
    - discriminate. }
  unfold fits_float in Hfit.
  unfold py_truediv, py_mod, coerce, to_complex.
  destruct Hr' as [->|[->|[s ->]]];
    destruct l as [a|b|f|d]; simpl in *; try discriminate;
    try (split; reflexivity);
    destruct (int_to_float _); simpl in *; try discriminate;
    split; reflexivity.
Qed.

(** C3 at the parser [grammar_parse], with 5 and 0. *)
Lemma zero_divisor_raises_witness :
  conforms grammar_parse
  /\ value_is_zero (VInt 0) = true
  /\ forall h : Host,
       py_truediv h (VInt 5) (VInt 0) = Raise ZeroDivisionError
       /\ py_mod (VInt 5) (VInt 0) = Raise ZeroDivisionError
       /\ safe_eval h grammar_parse "5 / 0" = Raise ZeroDivisionError
       /\ safe_eval h grammar_parse "5 % 0" = Raise ZeroDivisionError.
Proof.
  split; [exact grammar_parse_conforms|]. split; [reflexivity|].
  intro h.
  destruct (zero_divisor_raises h grammar_parse (VInt 5) (VInt 0)
              grammar_parse_conforms eq_refl) as (_ & _ & H & H1 & H2).
  destruct (H eq_refl eq_refl eq_refl) as [Hd Hm].
  repeat split; assumption.
Defined.

(** C3 fails as stated on the operands 10**400 and 0.0: the right one is
    exactly zero, yet the left one is converted to a float before the
    divisor is looked at, and the conversion raises OverflowError, which
    the prompt reports as an error of no particular kind. *)
Lemma oversized_dividend_overflows :
  value_is_zero (VFloat (S754_zero false)) = true
  /\ python_expr "10**400 / 0.0"
     = Parses (Expression
                 (BinOp (BinOp (Constant (CInt 10)) Pow (Constant (CInt 400)))
                    Div (Constant (CFloat (S754_zero false)))))
  /\ (forall h : Host,
        py_truediv h (VInt (10 ^ 400)) (VFloat (S754_zero false))
        = Raise OverflowError
        /\ py_mod (VInt (10 ^ 400)) (VFloat (S754_zero false))
           = Raise OverflowError)
  /\ (forall (h : Host) (ast_parse : string -> string + tree),
        conforms ast_parse ->
        safe_eval h ast_parse "10**400 / 0.0" = Raise OverflowError
        /\ safe_eval h ast_parse "10**400 % 0.0" = Raise OverflowError
        /\ repl_line h ast_parse "10**400 / 0.0"
           = Print (Error OverflowError)).
Proof.
  split; [reflexivity|]. split; [vm_compute; reflexivity|].
  split; [intro h; split; vm_compute; reflexivity|].
  intros h p Hp.
  assert (E : safe_eval h p "10**400 / 0.0" = Raise OverflowError)
    by run_safe_eval.
  split; [exact E|]. split; [run_safe_eval|].
  destruct (prompt_evaluates h p "10**400 / 0.0") as [-> _]; try reflexivity.
  unfold tried. change (strip "10**400 / 0.0") with "10**400 / 0.0".
  rewrite E. reflexivity.
Qed.

(** *** Integers and floats *)

Lemma of_pow_not_integer (r : arith_exn + pow_value) :
  returns_integer (of_pow r) = false.
Proof. destruct r as [[]|[]]; reflexivity. Qed.

(** [**] returns an integer only from two integers with an exponent that is
    not negative. *)
Lemma pow_integer_only_from_integers (h : Host) (l r : value) :
  returns_integer (py_pow h l r) = true ->
  exists a b, as_int l = Some a /\ as_int r = Some b /\ 0 <= b.
Proof.
  unfold py_pow, coerce, to_complex, to_float, int_to_float.
  assert (Hint : forall a b,
             returns_integer
               (if 0 <=? b then Ok (VInt (a ^ b))
                else x <- (if is_finite (of_Z a) then Ok (of_Z a)
                           else Raise OverflowError) ;;
                     y <- (if is_finite (of_Z b) then Ok (of_Z b)
                           else Raise OverflowError) ;;
                     of_pow (float_pow h x y)) = true ->
             0 <= b).
  { intros a b. destruct (Z.leb_spec 0 b); [auto|].
    destruct (is_finite (of_Z a)); [|discriminate].
    destruct (is_finite (of_Z b)); [|discriminate].
    simpl. rewrite of_pow_not_integer. discriminate. }
  destruct l as [a|a|f|c], r as [b|b|g|d]; simpl;
    try (intro H; apply Hint in H; eauto);
    repeat match goal with
           | |- context [is_finite ?x] => destruct (is_finite x)
           end;
    simpl; try rewrite of_pow_not_integer; try discriminate;
    destruct (complex_pow h _ _) as [[]|]; discriminate.
Qed.

(** [coerce] on two real operands, one of them a float: the float branch,
    or the failed conversion of an integer. *)
Lemma coerce_float_ind (P : result value -> Prop)
    (on_int : Z -> Z -> result value)
    (on_float : float -> float -> result value)
    (on_complex : complex -> complex -> result value) :
  P (Raise OverflowError) ->
  (forall a b, P (on_float a b)) ->
  forall l r,
    is_complex l = false -> is_complex r = false ->
    is_float l || is_float r = true ->
    P (coerce on_int on_float on_complex l r).
Proof.
  intros Hov Hf l r Hl Hr Hfl. unfold coerce. rewrite Hl, Hr. cbn [orb].
  assert (Hconv : forall (v : value) (k : float -> result value),
             is_complex v = false ->
             (forall f, P (k f)) -> P (bind (to_float v) k)).
  { intros v k Hv Hk. destruct v; try discriminate;
      cbn [to_float bind]; unfold int_to_float;
      try destruct (is_finite _); cbn [bind]; auto. }
  destruct l as [a|a|f|c], r as [b|b|g|d]; try discriminate;
    cbn [as_int]; apply Hconv; try reflexivity; intro;
    apply Hconv; try reflexivity; intro; apply Hf.
Qed.

Lemma int_true_divide_is_float (a b : Z) (v : value) :
  int_true_divide a b = Ok v -> is_float v = true.
Proof.
  unfold int_true_divide.
  destruct b; [discriminate| |];
    (destruct a;
     [ intro E; injection E as <-; reflexivity
     | destruct (is_finite _); [|discriminate];
       intro E; injection E as <-; reflexivity .. ]).
Qed.

(** [/] on two real operands returns a float whenever it returns. *)
Lemma truediv_real_is_float (h : Host) (l r v : value) :
  is_complex l = false -> is_complex r = false ->
  py_truediv h l r = Ok v -> is_float v = true.
Proof.
  intros Hl Hr. unfold py_truediv, coerce. rewrite Hl, Hr. cbn [orb].
  assert (Hconv : forall (x : value) (k : float -> result value),
             (forall f, k f = Ok v -> is_float v = true) ->
             bind (to_float x) k = Ok v -> is_float v = true).
  { intros x k Hk. destruct x; cbn [to_float bind]; unfold int_to_float;
      try destruct (is_finite _); cbn [bind]; try discriminate; apply Hk. }
  assert (Hfl : forall a b,
             (if is_zero b then Raise ZeroDivisionError
              else Ok (VFloat (div a b))) = Ok v -> is_float v = true).
  { intros a b. destruct (is_zero b); [discriminate|].
    intro E. injection E as <-. reflexivity. }
  destruct (as_int l), (as_int r);
    [ apply int_true_divide_is_float | | | ];
    apply Hconv; intro; apply Hconv; intro; apply Hfl.
Qed.

(** C5, as amended: on integers and floats, [/] returns a float whenever it
    returns ("4 / 2" is 2.0).  On two integers [+], [-], [*] return the
    integer sum, difference and product ("4 * 2" is 8), [%] the integer
    remainder for a divisor that is not zero, and [**] the integer power
    for an exponent that is not negative; [**] returns an integer in no
    other case.  With a float among two real operands, [+], [-], [*] and
    [%] return a float whenever they return. *)
Theorem division_is_float_others_keep_integers :
  forall (h : Host) (ast_parse : string -> string + tree),
    conforms ast_parse ->
    safe_eval h ast_parse "4 / 2" = Ok (VFloat (of_Z 2))
    /\ safe_eval h ast_parse "4 * 2" = Ok (VInt 8)
    /\ (forall l r v,
          is_complex l = false -> is_complex r = false ->
          py_truediv h l r = Ok v -> is_float v = true)
    /\ (forall l r a b,
          as_int l = Some a -> as_int r = Some b ->
          py_add h l r = Ok (VInt (a + b))
          /\ py_sub h l r = Ok (VInt (a - b))
          /\ py_mul h l r = Ok (VInt (a * b))
          /\ (b <> 0 -> py_mod l r = Ok (VInt (a mod b)))
          /\ (0 <= b -> py_pow h l r = Ok (VInt (a ^ b))))
    /\ (forall l r,
          returns_integer (py_pow h l r) = true ->
          exists a b, as_int l = Some a /\ as_int r = Some b /\ 0 <= b)
    /\ (forall l r v,
          is_complex l = false -> is_complex r = false ->
          is_float l || is_float r = true ->
          py_add h l r = Ok v \/ py_sub h l r = Ok v
          \/ py_mul h l r = Ok v \/ py_mod l r = Ok v ->
          is_float v = true).
Proof.
  intros h p Hp.
  split; [run_safe_eval|]. split; [run_safe_eval|].
  split; [intros l r v; apply truediv_real_is_float|].
  split.
  { intros l r a b Ha Hb.
    unfold py_add, py_sub, py_mul, py_mod, py_pow, coerce.
    assert (Hl : is_complex l = false)
      by (destruct l; try discriminate; reflexivity).
    assert (Hr : is_complex r = false)
      by (destruct r; try discriminate; reflexivity).
    rewrite Ha, Hb, Hl, Hr. cbn [orb].
    repeat split; try reflexivity.
    - intro Hb0. destruct (Z.eqb_spec b 0); [contradiction | reflexivity].
    - intro Hb0. destruct (Z.leb_spec 0 b); [reflexivity | lia]. }
  split; [apply pow_integer_only_from_integers|].
  intros l r v Hl Hr Hf.
  assert (Hany : forall f g k w,
             coerce f (fun a b => Ok (VFloat (g a b))) k l r = Ok w
             -> is_float w = true).
  { intros f g k.
    apply coerce_float_ind; try assumption; try discriminate.
    intros a b w E. injection E as <-. reflexivity. }
  assert (Hmod : forall w, py_mod l r = Ok w -> is_float w = true).
  { unfold py_mod. rewrite Hl, Hr. cbn [orb].
    apply coerce_float_ind; try assumption; try discriminate.
    intros a b w. destruct (is_zero b); [discriminate|].
    intro E. injection E as <-. reflexivity. }
  intros [E|[E|[E|E]]]; [ | | | exact (Hmod _ E)];
    exact (Hany _ _ _ _ E).
Qed.

(** C5 at the parser [grammar_parse]. *)
Lemma division_is_float_others_keep_integers_witness :
  conforms grammar_parse
  /\ forall h : Host,
       safe_eval h grammar_parse "4 / 2" = Ok (VFloat (of_Z 2))
       /\ safe_eval h grammar_parse "4 * 2" = Ok (VInt 8).
Proof.
  split; [exact grammar_parse_conforms|].
  intro h.
  destruct (division_is_float_others_keep_integers h grammar_parse
              grammar_parse_conforms) as (H1 & H2 & _).
  exact (conj H1 H2).
Defined.

(** C5 fails as stated on "2 ** -1": both operands are integers and the
    operator is not [/], yet the result is the float power of 2.0 and -1.0
    that the host computes, and on no host an integer. *)
Lemma negative_exponent_leaves_integers :
  python_expr "2 ** -1"
  = Parses (Expression
              (BinOp (Constant (CInt 2)) Pow
                 (UnaryOp USub (Constant (CInt 1)))))
  /\ (forall h : Host,
        py_pow h (VInt 2) (VInt (-1))
        = of_pow (float_pow h (of_Z 2) (of_Z (-1)))
        /\ returns_integer (py_pow h (VInt 2) (VInt (-1))) = false)
  /\ (forall (h : Host) (ast_parse : string -> string + tree),
        conforms ast_parse ->
        returns_integer (safe_eval h ast_parse "2 ** -1") = false).
Proof.
  split; [vm_compute; reflexivity|].
  assert (E : forall h, py_pow h (VInt 2) (VInt (-1))
                        = of_pow (float_pow h (of_Z 2) (of_Z (-1))))
    by (intro h; reflexivity).
  split.
  - intro h. split; [apply E|]. rewrite E. apply of_pow_not_integer.
  - intros h p Hp.
    erewrite safe_eval_parses by (try eassumption; vm_compute; reflexivity).
    change (returns_integer (py_pow h (VInt 2) (VInt (-1))) = false).
    rewrite E. apply of_pow_not_integer.
Qed.

(** ** Further properties of the evaluator *)

Lemma opp_involutive (f : float) : opp (opp f) = f.
Proof. destruct f; simpl; rewrite ?negb_involutive; reflexivity. Qed.

Lemma neg_neg_is_pos (v : value) : py_neg (py_neg v) = py_pos v.
Proof.
  destruct v as [z|b|f|[re im]]; simpl.
  - rewrite Z.opp_involutive. reflexivity.
  - rewrite Z.opp_involutive. reflexivity.
  - rewrite opp_involutive. reflexivity.
  - rewrite !opp_involutive. reflexivity.
Qed.

(** X1: the unary signs compose as signs do.  Two minus signs are a plus
    sign, a plus sign under or over a minus sign changes nothing, and two
    plus signs are one; with a plus sign, not with nothing: on a boolean
    [+] and [--] both give the integer. *)
Theorem unary_signs_compose :
  forall (h : Host) (e : expr),
    _eval h (UnaryOp USub (UnaryOp USub e)) = _eval h (UnaryOp UAdd e)
    /\ _eval h (UnaryOp USub (UnaryOp UAdd e)) = _eval h (UnaryOp USub e)
    /\ _eval h (UnaryOp UAdd (UnaryOp USub e)) = _eval h (UnaryOp USub e)
    /\ _eval h (UnaryOp UAdd (UnaryOp UAdd e)) = _eval h (UnaryOp UAdd e)
    /\ (forall b, _eval h e = Ok (VBool b) ->
                  _eval h (UnaryOp USub (UnaryOp USub e)) = Ok (VInt (Z.b2z b))).
Proof.
  intros h e. simpl.
  destruct (_eval h e) as [v|x]; simpl.
  - rewrite neg_neg_is_pos.
    repeat split; try (destruct v; reflexivity).
    intros b E. injection E as ->. reflexivity.
  - repeat split. intros b E. discriminate.
Qed.


(** *** What an operation can return, and what it can say *)

Lemma binary_not_boolean (h : Host) (l r : value) :
  returns_boolean (py_add h l r) = false
  /\ returns_boolean (py_sub h l r) = false
  /\ returns_boolean (py_mul h l r) = false
  /\ returns_boolean (py_truediv h l r) = false
  /\ returns_boolean (py_mod l r) = false
  /\ returns_boolean (py_pow h l r) = false.
Proof.
  assert (Hpow : forall r0, returns_boolean (of_pow r0) = false)
    by (intros [[]|[]]; reflexivity).
  repeat split.
  - unfold py_add. coerce_cases.
  - unfold py_sub. coerce_cases.
  - unfold py_mul. coerce_cases.
  - unfold py_truediv. coerce_cases.
    + unfold int_true_divide.
      destruct b, a; try reflexivity; destruct (is_finite _); reflexivity.
    + destruct (is_zero b); reflexivity.
    + destruct (complex_is_zero b); reflexivity.
  - unfold py_mod. destruct (is_complex l || is_complex r); [reflexivity|].
    coerce_cases.
    + destruct (b =? 0); reflexivity.
    + destruct (is_zero b); reflexivity.
  - unfold py_pow. coerce_cases.
    + destruct (0 <=? b); [reflexivity|].
      unfold int_to_float.
      destruct (is_finite (of_Z a)); [|reflexivity].
      destruct (is_finite (of_Z b)); [|reflexivity].
      apply Hpow.
    + apply Hpow.
    + destruct (complex_pow h a b) as [[]|]; reflexivity.
Qed.

(** X3: an operation never returns a boolean.  [safe_eval] returns [True]
    or [False] only when the whole tree is that one constant; under any
    operator a boolean has become an integer. *)
Theorem boolean_only_from_bare_literal :
  forall (h : Host) (ast_parse : string -> string + tree)
         (s : string) (b : bool),
    safe_eval h ast_parse s = Ok (VBool b) ->
    ast_parse s = inr (Expression (Constant (CBool b))).
Proof.
  intros h p s b. unfold safe_eval.
  destruct (p s) as [msg|[e]]; [discriminate|]. simpl.
  destruct e as [ | | l op r | op x | | | | | | | | | | | | | | | | c
                 | | | | | | | ]; try discriminate.
  - (* BinOp *)
    simpl. destruct (_eval h l) as [vl|]; [|discriminate].
    destruct (_eval h r) as [vr|]; [|discriminate]. simpl.
    destruct (binary_not_boolean h vl vr) as (Ha&Hs&Hm&Hd&Hr&Hp).
    intro E.
    destruct op; try discriminate;
      match goal with
      | H : returns_boolean ?x = false |- _ =>
          match type of E with x = _ => rewrite E in H; discriminate end
      end.
  - (* UnaryOp *)
    simpl. destruct (_eval h x) as [v|]; [|discriminate]. simpl.
    destruct op; try discriminate; destruct v; discriminate.
  - (* Constant *)
    simpl. destruct c; try discriminate.
    intro E. injection E as ->. reflexivity.
Qed.

(** X3 at "True" and the parser [grammar_parse]. *)
Lemma boolean_only_from_bare_literal_witness :
  python_expr "True" = Parses (Expression (Constant (CBool true)))
  /\ forall h : Host,
       safe_eval h grammar_parse "True" = Ok (VBool true)
       /\ grammar_parse "True" = inr (Expression (Constant (CBool true))).
Proof.
  split; [vm_compute; reflexivity|].
  intro h.
  assert (E : safe_eval h grammar_parse "True" = Ok (VBool true))
    by (vm_compute; reflexivity).
  split; [exact E|].
  exact (boolean_only_from_bare_literal h grammar_parse "True" true E).
Defined.

Lemma binary_not_value_error (h : Host) (l r : value) :
  is_value_error (py_add h l r) = false
  /\ is_value_error (py_sub h l r) = false
  /\ is_value_error (py_mul h l r) = false
  /\ is_value_error (py_truediv h l r) = false
  /\ is_value_error (py_mod l r) = false
  /\ is_value_error (py_pow h l r) = false.
Proof.
  assert (Hpow : forall r0, is_value_error (of_pow r0) = false)
    by (intros [[]|[]]; reflexivity).
  repeat split.
  - unfold py_add. coerce_cases.
  - unfold py_sub. coerce_cases.
  - unfold py_mul. coerce_cases.
  - unfold py_truediv. coerce_cases.
    + unfold int_true_divide.
      destruct b, a; try reflexivity; destruct (is_finite _); reflexivity.
    + destruct (is_zero b); reflexivity.
    + destruct (complex_is_zero b); reflexivity.
  - unfold py_mod. destruct (is_complex l || is_complex r); [reflexivity|].
    coerce_cases.
    + destruct (b =? 0); reflexivity.
    + destruct (is_zero b); reflexivity.
  - unfold py_pow. coerce_cases.
    + destruct (0 <=? b); [reflexivity|].
      unfold int_to_float.
      destruct (is_finite (of_Z a)); [|reflexivity].
      destruct (is_finite (of_Z b)); [|reflexivity].
      apply Hpow.
    + apply Hpow.
    + destruct (complex_pow h a b) as [[]|]; reflexivity.
Qed.

Lemma eval_value_error_message (h : Host) (e : expr) (m : string) :
  _eval h e = Raise (ValueError m) -> In m eval_messages.
Proof.
  induction e as [l op r IHl IHr | op x IHx | e He] using operation_ind.
  - simpl. destruct (_eval h l) as [vl|xl]; [|exact IHl].
    destruct (_eval h r) as [vr|xr]; [|exact IHr]. simpl.
    destruct (binary_not_value_error h vl vr) as (Ha&Hs&Hm&Hd&Hr&Hp).
    intro E.
    destruct op;
      try (injection E as <-; simpl; tauto);
      match goal with
      | H : is_value_error ?x = false |- _ =>
          match type of E with x = _ => rewrite E in H; discriminate end
      end.
  - simpl. destruct (_eval h x) as [v|xx]; [|exact IHx]. simpl.
    intro E. destruct op; try discriminate; injection E as <-; simpl; tauto.
  - rewrite eval_leaf by assumption.
    destruct e; try discriminate He;
      try (intro E; injection E as <-; simpl; tauto).
    match goal with c : constant |- _ => destruct c end;
      intro E; try discriminate; injection E as <-; simpl; tauto.
Qed.

(** X4: the messages of the evaluator.  A ValueError raised while a tree
    is walked carries one of four messages: "Only numbers are allowed",
    "Expected a numeric literal", "Unsupported binary operator",
    "Unsupported unary operator"; the arithmetic itself raises no
    ValueError.  So when the parser returns a tree, a ValueError that
    leaves [safe_eval] carries one of the four, and when the parser raises
    a SyntaxError, [safe_eval] raises a ValueError with "Syntax error: "
    before the text of that error. *)
Theorem value_error_messages :
  forall (h : Host),
    (forall (e : expr) (m : string),
        _eval h e = Raise (ValueError m) -> In m eval_messages)
    /\ (forall l r : value,
          is_value_error (py_add h l r) = false
          /\ is_value_error (py_sub h l r) = false
          /\ is_value_error (py_mul h l r) = false
          /\ is_value_error (py_truediv h l r) = false
          /\ is_value_error (py_mod l r) = false
          /\ is_value_error (py_pow h l r) = false)
    /\ (forall (ast_parse : string -> string + tree) (s m : string) (t : tree),
          ast_parse s = inr t ->
          safe_eval h ast_parse s = Raise (ValueError m) ->
          In m eval_messages)
    /\ (forall (ast_parse : string -> string + tree) (s msg : string),
          ast_parse s = inl msg ->
          safe_eval h ast_parse s
          = Raise (ValueError ("Syntax error: " ++ msg))).
Proof.
  intro h.
  split; [exact (eval_value_error_message h)|].
  split; [exact (binary_not_value_error h)|].
  split.
  - intros p s m [e] Hs. unfold safe_eval. rewrite Hs.
    apply eval_value_error_message.
  - intros p s msg Hs. unfold safe_eval. rewrite Hs. reflexivity.
Qed.

(** ** Properties of the sessions *)

Section LoopFacts.

Context {T L : Type}.
Variable str : Str T.
Variables in_repl in_main : T -> L.

Lemma accounted_for_more (ev : event_of T) (inp : list (event_of T))
    (o : output_of L) :
  accounted_for str in_repl in_main inp o ->
  accounted_for str in_repl in_main (ev :: inp) o.
Proof.
  destruct o; try (intros; exact I); cbn [accounted_for].
  - intros (raw & Hin & Ha). exists raw. split; [right; exact Hin | exact Ha].
  - intros (raw & Hin & Ha). exists raw. split; [right; exact Hin | exact Ha].
Qed.

Lemma Forall_accounted_more (ev : event_of T) (inp : list (event_of T))
    (os : list (output_of L)) :
  Forall (accounted_for str in_repl in_main inp) os ->
  Forall (accounted_for str in_repl in_main (ev :: inp)) os.
Proof.
  intro H. eapply Forall_impl; [|exact H].
  intro o. apply accounted_for_more.
Qed.

Lemma repl_accounted (inp : list (event_of T)) :
  forall at_, Forall (accounted_for str in_repl in_main inp)
                (fst (repl_loop str in_repl at_ inp)).
Proof.
  induction inp as [|ev rest IH]; intros [|]; cbn [repl_loop].
  - repeat constructor.
  - repeat constructor.
  - destruct ev as [raw|]; [|repeat constructor].
    cbn [emit fst]. constructor; [exact I|].
    destruct (str_is_empty str (str_strip str raw)) eqn:Hb;
      [apply Forall_accounted_more, IH|].
    destruct (leaving str (str_strip str raw)) eqn:Hq; [constructor|].
    destruct (str_any_alpha str (str_strip str raw)) eqn:Ha;
      cbn [emit fst]; constructor.
    + exists raw. split; [left; reflexivity | repeat split; assumption].
    + apply Forall_accounted_more, IH.
    + exists raw. split; [left; reflexivity|].
      split; [repeat split; assumption | left; reflexivity].
    + apply Forall_accounted_more, IH.
  - destruct ev as [raw|]; [|repeat constructor].
    cbn [emit fst]. constructor; [exact I|].
    destruct (read_answer str raw); cbn [emit fst].
    + apply Forall_accounted_more, IH.
    + constructor.
    + constructor; [exact I | apply Forall_accounted_more, IH].
Qed.

Lemma main_accounted (inp : list (event_of T)) :
  forall at_, Forall (accounted_for str in_repl in_main inp)
                (fst (main_loop str in_repl in_main at_ inp)).
Proof.
  induction inp as [|ev rest IH]; intros [|]; cbn [main_loop].
  - repeat constructor.
  - repeat constructor.
  - destruct ev as [raw|]; [|repeat constructor].
    cbn [emit fst]. constructor; [exact I|].
    destruct (str_is_empty str (str_strip str raw)) eqn:Hb.
    { unfold repl_session. cbn [emit fst]. constructor; [exact I|].
      apply Forall_accounted_more, repl_accounted. }
    destruct (leaving str (str_strip str raw)) eqn:Hq; [constructor|].
    destruct (str_any_alpha str (str_strip str raw)) eqn:Ha;
      cbn [emit fst]; constructor.
    + exists raw. split; [left; reflexivity | repeat split; assumption].
    + apply Forall_accounted_more, IH.
    + exists raw. split; [left; reflexivity|].
      split; [repeat split; assumption | right; reflexivity].
    + apply Forall_accounted_more, IH.
  - destruct ev as [raw|]; [|repeat constructor].
    cbn [emit fst]. constructor; [exact I|].
    destruct (read_answer str raw); cbn [emit fst].
    + apply Forall_accounted_more, IH.
    + constructor.
    + constructor; [exact I | apply Forall_accounted_more, IH].
Qed.

Lemma chained_cons (o x : output_of L) (os : list (output_of L)) :
  hd_error os = Some x ->
  may_follow o x = true ->
  chained os = true ->
  chained (o :: os) = true.
Proof.
  destruct os as [|y os]; [discriminate|].
  intros E Hf Hc. injection E as ->.
  change (may_follow o x && chained (x :: os) = true).
  rewrite Hf, Hc. reflexivity.
Qed.

Lemma repl_chained (inp : list (event_of T)) :
  forall at_,
    chained (fst (repl_loop str in_repl at_ inp)) = true
    /\ hd_error (fst (repl_loop str in_repl at_ inp))
       = Some (first_output at_).
Proof.
  induction inp as [|ev rest IH]; intros [|]; cbn [repl_loop];
    try (split; reflexivity).
  - destruct ev as [raw|]; [|split; reflexivity].
    cbn [emit fst]. split; [|reflexivity].
    destruct (IH AtPrompt) as [Cp Hp]. destruct (IH AtQuestion) as [Cq Hq].
    destruct (str_is_empty str (str_strip str raw));
      [eapply chained_cons; eauto; reflexivity|].
    destruct (leaving str (str_strip str raw)); [reflexivity|].
    destruct (str_any_alpha str (str_strip str raw)); cbn [emit fst].
    + eapply chained_cons; [reflexivity | reflexivity |].
      eapply chained_cons; eauto; reflexivity.
    + eapply chained_cons; [reflexivity | reflexivity |].
      eapply chained_cons; eauto; reflexivity.
  - destruct ev as [raw|]; [|split; reflexivity].
    cbn [emit fst]. split; [|reflexivity].
    destruct (IH AtPrompt) as [Cp Hp]. destruct (IH AtQuestion) as [Cq Hq].
    destruct (read_answer str raw); cbn [emit fst].
    + eapply chained_cons; eauto; reflexivity.
    + reflexivity.
    + eapply chained_cons; [reflexivity | reflexivity |].
      eapply chained_cons; eauto; reflexivity.
Qed.

Lemma main_chained (inp : list (event_of T)) :
  forall at_,
    chained (fst (main_loop str in_repl in_main at_ inp)) = true
    /\ hd_error (fst (main_loop str in_repl in_main at_ inp))
       = Some (first_output at_).
Proof.
  induction inp as [|ev rest IH]; intros [|]; cbn [main_loop];
    try (split; reflexivity).
  - destruct ev as [raw|]; [|split; reflexivity].
    cbn [emit fst]. split; [|reflexivity].
    destruct (IH AtPrompt) as [Cp Hp]. destruct (IH AtQuestion) as [Cq Hq].
    destruct (repl_chained rest AtPrompt) as [Cr Hr].
    destruct (str_is_empty str (str_strip str raw)).
    { unfold repl_session. cbn [emit fst].
      eapply chained_cons; [reflexivity | reflexivity |].
      eapply chained_cons; eauto; reflexivity. }
    destruct (leaving str (str_strip str raw)); [reflexivity|].
    destruct (str_any_alpha str (str_strip str raw)); cbn [emit fst].
    + eapply chained_cons; [reflexivity | reflexivity |].
      eapply chained_cons; eauto; reflexivity.
    + eapply chained_cons; [reflexivity | reflexivity |].
      eapply chained_cons; eauto; reflexivity.
  - destruct ev as [raw|]; [|split; reflexivity].
    cbn [emit fst]. split; [|reflexivity].
    destruct (IH AtPrompt) as [Cp Hp]. destruct (IH AtQuestion) as [Cq Hq].
    destruct (read_answer str raw); cbn [emit fst].
    + eapply chained_cons; eauto; reflexivity.
    + reflexivity.
    + eapply chained_cons; [reflexivity | reflexivity |].
      eapply chained_cons; eauto; reflexivity.
Qed.

Lemma unclear_batch (bad : list T) (rest : list (event_of T)) :
  Forall (fun raw => read_answer str raw = Unclear) bad ->
  repl_loop str in_repl AtQuestion (map Line bad ++ rest)%list
  = ((flat_map (fun _ => [AskAnother; PleaseAnswer]) bad
      ++ fst (repl_loop str in_repl AtQuestion rest))%list,
     snd (repl_loop str in_repl AtQuestion rest))
  /\ main_loop str in_repl in_main AtQuestion (map Line bad ++ rest)%list
     = ((flat_map (fun _ => [AskAnother; PleaseAnswer]) bad
         ++ fst (main_loop str in_repl in_main AtQuestion rest))%list,
        snd (main_loop str in_repl in_main AtQuestion rest)).
Proof.
  induction 1 as [|raw bad Hraw Hbad [IHr IHm]].
  - split; apply surjective_pairing.
  - cbn [map List.app repl_loop main_loop flat_map].
    rewrite Hraw, IHr, IHm. split; reflexivity.
Qed.

Lemma confirmed_batch (lines : list (T * T)) (rest : list (event_of T)) :
  Forall (confirmed str) lines ->
  repl_loop str in_repl AtPrompt (typed lines ++ rest)%list
  = ((calculations str in_repl lines
      ++ fst (repl_loop str in_repl AtPrompt rest))%list,
     snd (repl_loop str in_repl AtPrompt rest))
  /\ main_loop str in_repl in_main AtPrompt (typed lines ++ rest)%list
     = ((calculations str in_main lines
         ++ fst (main_loop str in_repl in_main AtPrompt rest))%list,
        snd (main_loop str in_repl in_main AtPrompt rest)).
Proof.
  induction 1 as [|[raw ans] lines [(Hb & Hq & Ha) Hans] Hlines [IHr IHm]].
  - split; apply surjective_pairing.
  - cbn [fst snd] in Hb, Hq, Ha, Hans.
    change (typed ((raw, ans) :: lines) ++ rest)%list
      with (Line raw :: Line ans :: (typed lines ++ rest)%list).
    cbn [repl_loop main_loop]. rewrite Hb, Hq, Ha, Hans.
    rewrite IHr, IHm. split; reflexivity.
Qed.

Lemma ends_at_question_emit (o : output_of L)
    (r : list (output_of L) * ending) :
  fst r <> [] -> ends_at_question r -> ends_at_question (emit o r).
Proof.
  destruct r as [[|x l] e]; [intro H; contradiction H; reflexivity|].
  intros _. unfold ends_at_question, emit. cbn [fst snd].
  change (last (o :: x :: l) BlankLine) with (last (x :: l) BlankLine).
  trivial.
Qed.

Lemma repl_loop_prints (at_ : place) (inp : list (event_of T)) :
  fst (repl_loop str in_repl at_ inp) <> [].
Proof. destruct at_, inp as [|[raw|] rest]; discriminate. Qed.

Lemma main_loop_prints (at_ : place) (inp : list (event_of T)) :
  fst (main_loop str in_repl in_main at_ inp) <> [].
Proof. destruct at_, inp as [|[raw|] rest]; discriminate. Qed.

Lemma repl_endings (inp : list (event_of T)) :
  forall at_,
    ends_at_question (repl_loop str in_repl at_ inp)
    /\ no_exit (repl_loop str in_repl at_ inp)
    /\ interrupt_was_typed inp (repl_loop str in_repl at_ inp).
Proof.
  unfold no_exit, interrupt_was_typed.
  induction inp as [|ev rest IH]; intros [|];
    try (repeat split; try discriminate; exact I).
  - destruct ev as [raw|]; [|repeat split; discriminate].
    destruct (IH AtPrompt) as (Ep & Np & Ip).
    destruct (IH AtQuestion) as (Eq & Nq & Iq).
    cbn [repl_loop].
    destruct (str_is_empty str (str_strip str raw));
      [| destruct (leaving str (str_strip str raw));
         [| destruct (str_any_alpha str (str_strip str raw))]];
      (split;
       [ repeat (apply ends_at_question_emit;
                 [solve [apply repl_loop_prints | discriminate]|]);
         solve [assumption | exact I]
       | split; cbn [emit snd];
         solve [assumption | discriminate
               | intro E; right; auto ] ]).
  - destruct ev as [raw|];
      [|repeat split; try discriminate; intros _; left; reflexivity].
    destruct (IH AtPrompt) as (Ep & Np & Ip).
    destruct (IH AtQuestion) as (Eq & Nq & Iq).
    cbn [repl_loop].
    destruct (read_answer str raw);
      (split;
       [ repeat (apply ends_at_question_emit;
                 [solve [apply repl_loop_prints | discriminate]|]);
         solve [assumption | exact I]
       | split; cbn [emit snd];
         solve [assumption | discriminate
               | intro E; right; auto ] ]).
Qed.

Lemma main_endings (inp : list (event_of T)) :
  forall at_,
    ends_at_question (main_loop str in_repl in_main at_ inp)
    /\ interrupt_was_typed inp (main_loop str in_repl in_main at_ inp).
Proof.
  unfold interrupt_was_typed.
  induction inp as [|ev rest IH]; intros [|];
    try (repeat split; try discriminate; exact I).
  - destruct ev as [raw|]; [|repeat split; discriminate].
    destruct (IH AtPrompt) as (Ep & Ip).
    destruct (IH AtQuestion) as (Eq & Iq).
    destruct (repl_endings rest AtPrompt) as (Er & _ & Ir).
    cbn [main_loop]. unfold repl_session, interrupt_was_typed in *.
    destruct (str_is_empty str (str_strip str raw));
      [| destruct (leaving str (str_strip str raw));
         [| destruct (str_any_alpha str (str_strip str raw))]];
      (split;
       [ repeat (apply ends_at_question_emit;
                 [solve [apply repl_loop_prints | apply main_loop_prints
                        | discriminate]|]);
         solve [assumption | exact I]
       | cbn [emit snd];
         solve [assumption | discriminate
               | intro E; right; auto ] ]).
  - destruct ev as [raw|];
      [|repeat split; try discriminate; intros _; left; reflexivity].
    destruct (IH AtPrompt) as (Ep & Ip).
    destruct (IH AtQuestion) as (Eq & Iq).
    cbn [main_loop].
    destruct (read_answer str raw);
      (split;
       [ first
           [ repeat (apply ends_at_question_emit;
                     [solve [apply main_loop_prints | discriminate]|]);
             solve [assumption | exact I]
           | split; reflexivity ]
       | cbn [emit snd];
         solve [assumption | discriminate
               | intro E; right; auto ] ]).
Qed.

Lemma quiet_repl (inp : list (event_of T)) :
  Forall (quiet str) inp ->
  snd (repl_loop str in_repl AtPrompt inp) = Returned
  /\ Forall without_evaluation (fst (repl_loop str in_repl AtPrompt inp)).
Proof.
  induction 1 as [|ev rest Hev Hrest [IHs IHo]];
    [split; [reflexivity | repeat constructor]|].
  destruct ev as [raw|]; [|split; [reflexivity | repeat constructor]].
  cbn [repl_loop emit fst snd].
  destruct (str_is_empty str (str_strip str raw)) eqn:Hb;
    [split; [exact IHs | constructor; [exact I | exact IHo]]|].
  destruct (leaving str (str_strip str raw)) eqn:Hq;
    [split; [reflexivity | repeat constructor]|].
  destruct Hev as [Hb'|[Hq'|Ha]]; [congruence | congruence |].
  rewrite Ha. cbn [emit fst snd].
  split; [exact IHs | repeat (constructor; [exact I|]); exact IHo].
Qed.

Lemma quiet_main (inp : list (event_of T)) :
  Forall (quiet str) inp ->
  snd (main_loop str in_repl in_main AtPrompt inp) = Returned
  /\ Forall without_evaluation
       (fst (main_loop str in_repl in_main AtPrompt inp)).
Proof.
  induction 1 as [|ev rest Hev Hrest [IHs IHo]];
    [split; [reflexivity | repeat constructor]|].
  destruct ev as [raw|]; [|split; [reflexivity | repeat constructor]].
  cbn [main_loop emit fst snd].
  destruct (str_is_empty str (str_strip str raw)) eqn:Hb.
  { destruct (quiet_repl rest Hrest) as [Rs Ro].
    unfold repl_session. cbn [emit fst snd].
    split; [exact Rs | repeat (constructor; [exact I|]); exact Ro]. }
  destruct (leaving str (str_strip str raw)) eqn:Hq;
    [split; [reflexivity | repeat constructor]|].
  destruct Hev as [Hb'|[Hq'|Ha]]; [congruence | congruence |].
  rewrite Ha. cbn [emit fst snd].
  split; [exact IHs | repeat (constructor; [exact I|]); exact IHo].
Qed.

End LoopFacts.

(** X5: in a session, letters never reach the evaluator.  Whatever is
    typed, every line a [try] statement prints is the one it prints for the
    stripped text of a line of the input that the loop evaluates (not
    blank, no request to leave, no alphabetic character), and every "Only
    numbers and operators are allowed" answers a line of the input that
    holds an alphabetic character (and is neither blank nor a request to
    leave).  This holds whatever [str.strip],
    [str.lower] and [str.isalpha] are, and whatever the [try] statements
    print. *)
Theorem reports_are_accounted_for :
  forall (T L : Type) (str : Str T) (in_repl in_main : T -> L)
         (inp : list (event_of T)),
    Forall (accounted_for str in_repl in_repl inp)
      (fst (repl_session str in_repl inp))
    /\ Forall (accounted_for str in_repl in_main inp)
         (fst (main_session str in_repl in_main inp)).
Proof.
  intros T L str in_repl in_main inp.
  split; unfold repl_session, main_session; cbn [emit fst];
    constructor; try exact I.
  - apply repl_accounted.
  - apply main_accounted.
Qed.

(** *** The order of the outputs *)

(** X6: the order of the outputs.  In every session each line a [try]
    statement prints (an answer or an error) is followed at once by the
    question "Do you want another calculation?", the refusal of a line with
    letters by the prompt (no question is asked), and "Please answer 'y' or
    'n'." by the question again; a banner is followed by the prompt; and
    the session ends on a prompt, a question, or the empty line printed
    when the input ends at the prompt: never on an answer. *)
Theorem outputs_follow_protocol :
  forall (T L : Type) (str : Str T) (in_repl in_main : T -> L)
         (inp : list (event_of T)),
    chained (fst (repl_session str in_repl inp)) = true
    /\ chained (fst (main_session str in_repl in_main inp)) = true.
Proof.
  intros T L str in_repl in_main inp.
  destruct (repl_chained str in_repl inp AtPrompt) as [Cr Hr].
  destruct (main_chained str in_repl in_main inp AtPrompt) as [Cm Hm].
  split; unfold repl_session, main_session; cbn [emit fst];
    eapply chained_cons; eauto; reflexivity.
Qed.

(** *** The question *)

(** X7: the question is asked until it is answered.  At the question,
    answers that once stripped and lowered are none of y, yes, n and no are
    each met by "Please answer 'y' or 'n'." and the question again; however
    many they are, and whatever they are (an expression is not evaluated
    there), the session then goes on as if they had not been typed. *)
Theorem unclear_answers_repeat_question :
  forall (T L : Type) (str : Str T) (in_repl in_main : T -> L)
         (bad : list T) (rest : list (event_of T)),
    Forall (fun raw => read_answer str raw = Unclear) bad ->
    repl_loop str in_repl AtQuestion (map Line bad ++ rest)%list
    = ((flat_map (fun _ => [AskAnother; PleaseAnswer]) bad
        ++ fst (repl_loop str in_repl AtQuestion rest))%list,
       snd (repl_loop str in_repl AtQuestion rest))
    /\ main_loop str in_repl in_main AtQuestion (map Line bad ++ rest)%list
       = ((flat_map (fun _ => [AskAnother; PleaseAnswer]) bad
           ++ fst (main_loop str in_repl in_main AtQuestion rest))%list,
          snd (main_loop str in_repl in_main AtQuestion rest)).
Proof. intros T L str in_repl in_main. apply unclear_batch. Qed.

(** X7 at the answers "2+2" and "maybe", followed by "Y". *)
Lemma unclear_answers_repeat_question_witness :
  Forall (fun raw => read_reply raw = Unclear) ["2+2"; "maybe"]
  /\ forall (h : Host) (ast_parse : string -> string + tree),
       repl_from h ast_parse AtQuestion [Line "2+2"; Line "maybe"; Line "Y"]
       = ([AskAnother; PleaseAnswer; AskAnother; PleaseAnswer;
           AskAnother; AskExpression; BlankLine], Returned).
Proof.
  assert (Hbad : Forall (fun raw => read_reply raw = Unclear)
                   ["2+2"; "maybe"])
    by (repeat constructor).
  split; [exact Hbad|].
  intros h p.
  exact (proj1 (unclear_answers_repeat_question string printed latin1
                  (tried h p) (tried h p) ["2+2"; "maybe"]
                  [Line "Y"] Hbad)).
Defined.

(** *** Calculations in a row *)

(** An integer below [10^640] is printed on every host. *)
Lemma shown_small (h : Host) (z : Z) :
  Z.abs z < 10 ^ 640 -> shown h (Ok (VInt z)) = Ok (VInt z).
Proof.
  intro H. unfold shown, exceeds_str_limit.
  destruct (int_max_str_digits h) as [n|]; [|reflexivity].
  assert (10 ^ 640 <= 10 ^ Z.of_nat (Nat.max n 640))
    by (apply Z.pow_le_mono_r; lia).
  destruct (Z.leb_spec (10 ^ Z.of_nat (Nat.max n 640)) (Z.abs z));
    [lia | reflexivity].
Qed.

Lemma tried_small (h : Host) (ast_parse : string -> string + tree)
    (s : string) (z : Z) :
  safe_eval h ast_parse s = Ok (VInt z) ->
  Z.abs z < 10 ^ 640 ->
  tried h ast_parse s = Answer (VInt z).
Proof.
  intros E H. unfold tried. rewrite E, shown_small by exact H. reflexivity.
Qed.

(** X8: calculations in a row.  When each of a list of lines is one the
    loop evaluates (not blank, no request to leave, no alphabetic
    character) and each is followed by an answer that says yes, the session
    prints for each, in order, the prompt, the line its [try] statement
    prints for the stripped text, and the question, and then goes on with
    the rest of the input as a fresh loop would: nothing of one
    calculation is left for the next. *)
Theorem confirmed_calculations_run_in_order :
  forall (T L : Type) (str : Str T) (in_repl in_main : T -> L)
         (lines : list (T * T)) (rest : list (event_of T)),
    Forall (confirmed str) lines ->
    repl_session str in_repl (typed lines ++ rest)%list
    = ((ReplBanner :: calculations str in_repl lines
        ++ fst (repl_loop str in_repl AtPrompt rest))%list,
       snd (repl_loop str in_repl AtPrompt rest))
    /\ main_session str in_repl in_main (typed lines ++ rest)%list
       = ((MainBanner :: calculations str in_main lines
           ++ fst (main_loop str in_repl in_main AtPrompt rest))%list,
          snd (main_loop str in_repl in_main AtPrompt rest)).
Proof.
  intros T L str in_repl in_main lines rest H.
  destruct (confirmed_batch str in_repl in_main lines rest H) as [Er Em].
  unfold repl_session, main_session, emit. rewrite Er, Em.
  split; reflexivity.
Qed.

(** X8 at the calculations "2 + 3" and "4 * 5", each answered "y". *)
Lemma confirmed_calculations_run_in_order_witness :
  Forall (confirmed latin1) [("2 + 3", "y"); ("4 * 5", "y")]
  /\ forall h : Host,
       program h grammar_parse []
         [Line "2 + 3"; Line "y"; Line "4 * 5"; Line "y"]
       = ([MainBanner;
           AskExpression; Said (Answer (VInt 5)); AskAnother;
           AskExpression; Said (Answer (VInt 20)); AskAnother;
           AskExpression; BlankLine], Returned).
Proof.
  assert (H : Forall (confirmed latin1) [("2 + 3", "y"); ("4 * 5", "y")]).
  { repeat constructor. }
  split; [exact H|].
  intro h.
  refine (eq_trans
            (proj2 (confirmed_calculations_run_in_order string printed latin1
                      (tried h grammar_parse) (tried h grammar_parse)
                      [("2 + 3", "y"); ("4 * 5", "y")] [] H)) _).
  cbn [calculations flat_map List.app fst snd main_loop].
  change (str_strip latin1 "2 + 3") with "2 + 3".
  change (str_strip latin1 "4 * 5") with "4 * 5".
  rewrite (tried_small h grammar_parse "2 + 3" 5)
    by (vm_compute; reflexivity).
  rewrite (tried_small h grammar_parse "4 * 5" 20)
    by (vm_compute; reflexivity).
  reflexivity.
Defined.

(** X9: the question is not guarded.  When the input ends right after a
    calculation, that is at the question, the EOFError of [input()] is
    caught by nothing: after any list of confirmed calculations, one more
    line that the loop evaluates followed by the end of the input makes
    [repl()] and the program end with that exception, the line of the [try]
    statement and the question being the last things printed. *)
Theorem unanswered_question_escapes :
  forall (T L : Type) (str : Str T) (in_repl in_main : T -> L)
         (lines : list (T * T)) (last : T),
    Forall (confirmed str) lines ->
    evaluable str last ->
    repl_session str in_repl (typed lines ++ [Line last])%list
    = ((ReplBanner :: calculations str in_repl lines
        ++ [AskExpression; Said (in_repl (str_strip str last));
            AskAnother])%list,
       Uncaught EOFError)
    /\ main_session str in_repl in_main (typed lines ++ [Line last])%list
       = ((MainBanner :: calculations str in_main lines
           ++ [AskExpression; Said (in_main (str_strip str last));
               AskAnother])%list,
          Uncaught EOFError).
Proof.
  intros T L str in_repl in_main lines last H (Hb & Hq & Ha).
  destruct (confirmed_batch str in_repl in_main lines [Line last] H)
    as [Er Em].
  unfold repl_session, main_session, emit. rewrite Er, Em.
  cbn [repl_loop main_loop]. rewrite Hb, Hq, Ha. split; reflexivity.
Qed.

(** X9 at the single line "2 + 2". *)
Lemma unanswered_question_escapes_witness :
  Forall (confirmed latin1) [] /\ evaluable latin1 "2 + 2"
  /\ forall h : Host,
       program h grammar_parse [] [Line "2 + 2"]
       = ([MainBanner; AskExpression; Said (Answer (VInt 4)); AskAnother],
          Uncaught EOFError).
Proof.
  assert (He : evaluable latin1 "2 + 2") by (repeat split).
  split; [constructor|]. split; [exact He|].
  intro h.
  refine (eq_trans
            (proj2 (unanswered_question_escapes string printed latin1
                      (tried h grammar_parse) (tried h grammar_parse)
                      [] "2 + 2" (Forall_nil _) He)) _).
  cbn [calculations flat_map List.app].
  change (str_strip latin1 "2 + 2") with "2 + 2".
  rewrite (tried_small h grammar_parse "2 + 2" 4)
    by (vm_compute; reflexivity).
  reflexivity.
Defined.

(** *** How a session ends *)

(** X10: how a session ends.  Whatever is typed, [repl()] never calls
    [sys.exit]; when [repl()] or the interactive program ends by an
    exception of [input()], or the program by [sys.exit], the last thing
    printed is the question, and the exit status is 0; and a
    KeyboardInterrupt escapes only if an interrupt was typed. *)
Theorem sessions_end_at_the_question :
  forall (h : Host) (ast_parse : string -> string + tree)
         (inp : list event),
    (forall status, snd (repl h ast_parse inp) <> Exit status)
    /\ ends_at_question (repl h ast_parse inp)
    /\ ends_at_question (program h ast_parse [] inp)
    /\ (snd (repl h ast_parse inp) = Uncaught KeyboardInterrupt ->
        In Interrupt inp)
    /\ (snd (program h ast_parse [] inp) = Uncaught KeyboardInterrupt ->
        In Interrupt inp).
Proof.
  intros h p inp.
  destruct (repl_endings latin1 (tried h p) inp AtPrompt) as (Er & Nr & Ir).
  destruct (main_endings latin1 (tried h p) (tried h p) inp AtPrompt)
    as (Em & Im).
  split; [exact Nr|].
  split; [apply ends_at_question_emit; [apply repl_loop_prints | exact Er]|].
  split; [apply (ends_at_question_emit MainBanner);
          [apply main_loop_prints | exact Em]|].
  split; [exact Ir | exact Im].
Qed.

(** X11: without a calculation, a session ends quietly.  When every line
    of the input is blank, asks to leave or holds an alphabetic character,
    the loops evaluate nothing and ask no question (no line of a [try]
    statement, no question and no "Please answer" is printed), and
    [repl()] and the interactive program return, whether the input ends, is
    interrupted, or asks to leave. *)
Theorem quiet_session_returns :
  forall (T L : Type) (str : Str T) (in_repl in_main : T -> L)
         (inp : list (event_of T)),
    Forall (quiet str) inp ->
    (snd (repl_session str in_repl inp) = Returned
     /\ Forall without_evaluation (fst (repl_session str in_repl inp)))
    /\ (snd (main_session str in_repl in_main inp) = Returned
        /\ Forall without_evaluation
             (fst (main_session str in_repl in_main inp))).
Proof.
  intros T L str in_repl in_main inp H.
  destruct (quiet_repl str in_repl inp H) as [Rs Ro].
  destruct (quiet_main str in_repl in_main inp H) as [Ms Mo].
  unfold repl_session, main_session. cbn [emit fst snd].
  repeat split; try assumption; constructor; solve [exact I | assumption].
Qed.

(** X11 at a blank line, a line with letters, an interrupt. *)
Lemma quiet_session_returns_witness :
  Forall (quiet latin1) [Line "  "; Line "two plus two"; Interrupt]
  /\ forall (h : Host) (ast_parse : string -> string + tree),
       program h ast_parse [] [Line "  "; Line "two plus two"; Interrupt]
       = ([MainBanner; AskExpression; ReplBanner; AskExpression; Refused;
           AskExpression; BlankLine], Returned)
       /\ Forall without_evaluation
            (fst (program h ast_parse []
                    [Line "  "; Line "two plus two"; Interrupt])).
Proof.
  assert (H : Forall (quiet latin1)
                [Line "  "; Line "two plus two"; Interrupt]).
  { constructor; [left; reflexivity|].
    constructor; [right; right; reflexivity|].
    constructor; [exact I | constructor]. }
  split; [exact H|].
  intros h p. split; [reflexivity|].
  exact (proj2 (proj2 (quiet_session_returns string printed latin1
                         (tried h p) (tried h p) _ H))).
Defined.

(** *** The tests at the prompt and the answers at the question *)

(** X16: the tests at the prompt, in their order.  A line is stripped and
    then tested for being empty first: [repl] reads the next line, the
    loop under [__main__] runs [repl()] on the rest of the input and ends
    as it ends.  A line that is [quit] or [exit], in any case, leaves the
    loop: it is tested before the letters it is made of are looked for.
    A line that passes the three tests is handed to the [try] statement,
    and the question follows what it prints.  The blanks stripped are
    those of [str.strip]: the no-break space and the separators of ASCII
    among them. *)
Theorem prompt_tests_in_order :
  forall (T L : Type) (str : Str T) (in_repl in_main : T -> L)
         (tries : T -> printed) (raw : T) (rest : list (event_of T)),
    (str_is_empty str (str_strip str raw) = true ->
     prompt_line str tries Again raw = Again
     /\ prompt_line str tries OpenRepl raw = OpenRepl
     /\ repl_loop str in_repl AtPrompt (Line raw :: rest)
        = emit AskExpression (repl_loop str in_repl AtPrompt rest)
     /\ main_loop str in_repl in_main AtPrompt (Line raw :: rest)
        = emit AskExpression (repl_session str in_repl rest))
    /\ (str_is_empty str (str_strip str raw) = false ->
        leaving str (str_strip str raw) = true ->
        (forall on_blank, prompt_line str tries on_blank raw = Leave)
        /\ repl_loop str in_repl AtPrompt (Line raw :: rest)
           = ([AskExpression], Returned)
        /\ main_loop str in_repl in_main AtPrompt (Line raw :: rest)
           = ([AskExpression], Returned))
    /\ (evaluable str raw ->
        (forall on_blank,
            prompt_line str tries on_blank raw
            = Print (tries (str_strip str raw)))
        /\ repl_loop str in_repl AtPrompt (Line raw :: rest)
           = emit AskExpression
               (emit (Said (in_repl (str_strip str raw)))
                  (repl_loop str in_repl AtQuestion rest))
        /\ main_loop str in_repl in_main AtPrompt (Line raw :: rest)
           = emit AskExpression
               (emit (Said (in_main (str_strip str raw)))
                  (main_loop str in_repl in_main AtQuestion rest)))
    /\ (forall (h : Host) (ast_parse : string -> string + tree),
          repl_line h ast_parse "quit" = Leave
          /\ repl_line h ast_parse "  EXIT " = Leave
          /\ main_line h ast_parse "Quit" = Leave
          /\ repl_line h ast_parse "   " = Again
          /\ main_line h ast_parse "" = OpenRepl
          /\ repl_line h ast_parse "quit now" = Print OnlyNumbers
          /\ repl_line h ast_parse (nbsp ++ "quit") = Leave
          /\ repl_line h ast_parse (blanks ++ "exit" ++ blanks) = Leave
          /\ main_line h ast_parse blanks = OpenRepl).
Proof.
  intros T L str in_repl in_main tries raw rest.
  split; [|split; [|split]].
  - intro Hb. unfold prompt_line. cbn [repl_loop main_loop]. rewrite Hb.
    repeat split.
  - intros Hb Hq. unfold prompt_line. cbn [repl_loop main_loop].
    rewrite Hb, Hq. repeat split.
  - intros (Hb & Hq & Ha). unfold prompt_line. cbn [repl_loop main_loop].
    rewrite Hb, Hq, Ha. repeat split.
  - intros h p. repeat split.
Qed.

(** X17: the answers at the question.  An answer that once stripped and
    lowered is y or yes takes the loop back to its prompt; one that is n or
    no ends it: [repl()] returns, and the program calls [sys.exit(0)]; in
    both cases nothing more is read. *)
Theorem answers_at_the_question :
  forall (T L : Type) (str : Str T) (in_repl in_main : T -> L)
         (raw : T) (rest : list (event_of T)),
    (read_answer str raw = Yes ->
     repl_loop str in_repl AtQuestion (Line raw :: rest)
     = emit AskAnother (repl_loop str in_repl AtPrompt rest)
     /\ main_loop str in_repl in_main AtQuestion (Line raw :: rest)
        = emit AskAnother (main_loop str in_repl in_main AtPrompt rest))
    /\ (read_answer str raw = No ->
        repl_loop str in_repl AtQuestion (Line raw :: rest)
        = ([AskAnother], Returned)
        /\ main_loop str in_repl in_main AtQuestion (Line raw :: rest)
           = ([AskAnother], Exit 0))
    /\ Forall (fun a => read_reply a = Yes)
         ["y"; "yes"; " Y "; "YES"; nbsp ++ "y"]
    /\ Forall (fun a => read_reply a = No) ["n"; "no"; "N"; " No "]
    /\ Forall (fun a => read_reply a = Unclear) [""; "yes please"; "0"; "2+2"].
Proof.
  intros T L str in_repl in_main raw rest.
  split; [|split; [|split; [|split]]].
  - intro H. cbn [repl_loop main_loop]. rewrite H. split; reflexivity.
  - intro H. cbn [repl_loop main_loop]. rewrite H. split; reflexivity.
  - repeat constructor.
  - repeat constructor.
  - repeat constructor.
Qed.

(** *** Blanks around a line *)

Lemma lstrip_clean (l : list ascii) : clean_start (lstrip l).
Proof.
  induction l as [|c l IH]; simpl; [exact I|].
  destruct (isspace c) eqn:E; [exact IH | exact E].
Qed.

Lemma lstrip_of_clean (l : list ascii) : clean_start l -> lstrip l = l.
Proof. destruct l as [|c l]; simpl; [reflexivity | intros ->; reflexivity]. Qed.

Lemma lstrip_keeps_last (l : list ascii) (c : ascii) :
  isspace c = false -> exists y, lstrip (l ++ [c])%list = (y ++ [c])%list.
Proof.
  intro Hc. induction l as [|a l [y IH]]; simpl.
  - rewrite Hc. exists []. reflexivity.
  - destruct (isspace a).
    + exists y. exact IH.
    + exists (a :: l). reflexivity.
Qed.

(** Stripping the end of a list that starts cleanly leaves a list that
    starts and ends cleanly. *)
Lemma rstrip_of_clean (t : list ascii) :
  clean_start t ->
  clean_start (rev (lstrip (rev t)))
  /\ clean_start (lstrip (rev t)).
Proof.
  intro Ht. split; [|apply lstrip_clean].
  destruct t as [|c t]; [exact I|].
  simpl in Ht. simpl rev.
  destruct (lstrip_keeps_last (rev t) c Ht) as [y ->].
  rewrite rev_app_distr. simpl. exact Ht.
Qed.

Lemma strip_idempotent (s : string) : strip (strip s) = strip s.
Proof.
  unfold strip. rewrite list_ascii_of_string_of_list_ascii.
  set (t := lstrip (list_ascii_of_string s)).
  destruct (rstrip_of_clean t (lstrip_clean _)) as [H1 H2].
  rewrite (lstrip_of_clean _ H1), rev_involutive.
  rewrite (lstrip_of_clean _ H2). reflexivity.
Qed.

(** X12: blanks around a line do not count.  The loops and the question
    treat a line and the same line without its leading and trailing
    blanks alike: both are blank, both ask to leave, both are refused for a
    letter, or both are evaluated to the same report; and the answer read
    at the question is the same. *)
Theorem surrounding_blanks_are_ignored :
  forall (h : Host) (ast_parse : string -> string + tree) (raw : string),
    repl_line h ast_parse (strip raw) = repl_line h ast_parse raw
    /\ main_line h ast_parse (strip raw) = main_line h ast_parse raw
    /\ read_reply (strip raw) = read_reply raw
    /\ (forall rest at_,
          repl_from h ast_parse at_ (Line (strip raw) :: rest)
          = repl_from h ast_parse at_ (Line raw :: rest))
    /\ (forall rest at_,
          main_from h ast_parse at_ (Line (strip raw) :: rest)
          = main_from h ast_parse at_ (Line raw :: rest)).
Proof.
  intros h p raw.
  assert (Hs : str_strip latin1 (strip raw) = str_strip latin1 raw)
    by apply strip_idempotent.
  assert (Hr : read_answer latin1 (strip raw) = read_answer latin1 raw)
    by (unfold read_answer; rewrite Hs; reflexivity).
  split; [unfold repl_line, prompt_line; rewrite Hs; reflexivity|].
  split; [unfold main_line, prompt_line; rewrite Hs; reflexivity|].
  split; [exact Hr|].
  split; intros rest [|]; unfold repl_from, main_from;
    cbn [repl_loop main_loop]; rewrite ?Hs, ?Hr; reflexivity.
Qed.

(** *** Answers too long to print *)

(** X15: the answer is printed inside the [try].  Turning an integer into
    text fails beyond the interpreter's limit on decimal digits, and the
    ValueError is caught like one of [safe_eval]: the prompt prints
    "Invalid expression:" with its message, and the command line "Error:"
    with it, and exits with status 1.  An integer within the limit is
    printed, and so is every integer below [10^640], under which no limit
    can be set, and every integer where there is no limit; floats,
    booleans and complex results are printed whatever their size, and an
    exception of [safe_eval] is reported as it is.  With arguments the
    program prints the answer and ends, or prints "Error:" with the
    exception of the [try] body and exits with status 1, and reads
    nothing. *)
Theorem long_answers_are_not_printed :
  forall (h : Host) (z : Z),
    (Z.abs z < 10 ^ 640 -> shown h (Ok (VInt z)) = Ok (VInt z))
    /\ (int_max_str_digits h = None -> shown h (Ok (VInt z)) = Ok (VInt z))
    /\ (forall n : nat,
          int_max_str_digits h = Some n -> (640 <= n)%nat ->
          (Z.abs z < 10 ^ Z.of_nat n -> shown h (Ok (VInt z)) = Ok (VInt z))
          /\ (10 ^ Z.of_nat n <= Z.abs z ->
              shown h (Ok (VInt z))
              = Raise (ValueError (int_str_limit_error h))
              /\ (forall (ast_parse : string -> string + tree) (s : string),
                    safe_eval h ast_parse s = Ok (VInt z) ->
                    tried h ast_parse s
                    = InvalidExpression (int_str_limit_error h))
              /\ (forall (ast_parse : string -> string + tree)
                         (args : list string),
                    safe_eval h ast_parse (String.concat " " args)
                    = Ok (VInt z) ->
                    main_argv h ast_parse args
                    = (Error (ValueError (int_str_limit_error h)), 1))))
    /\ (forall v : value, is_integer v = false -> shown h (Ok v) = Ok v)
    /\ (forall b : bool, shown h (Ok (VBool b)) = Ok (VBool b))
    /\ (forall e : exn, shown h (Raise e) = Raise e)
    /\ (forall (ast_parse : string -> string + tree) (a : string)
               (args : list string) (inp : list event),
          match shown h (safe_eval h ast_parse (String.concat " " (a :: args)))
          with
          | Ok v =>
              main_argv h ast_parse (a :: args) = (Answer v, 0)
              /\ program h ast_parse (a :: args) inp
                 = ([Said (Answer v)], Returned)
          | Raise e =>
              main_argv h ast_parse (a :: args) = (Error e, 1)
              /\ program h ast_parse (a :: args) inp
                 = ([Said (Error e)], Exit 1)
          end).
Proof.
  intros h z.
  split; [apply shown_small|].
  split; [intro E; unfold shown, exceeds_str_limit; rewrite E; reflexivity|].
  split.
  { intros n E Hn.
    assert (Hmax : Nat.max n 640 = n) by lia.
    assert (Hs : shown h (Ok (VInt z))
                 = if 10 ^ Z.of_nat n <=? Z.abs z
                   then Raise (ValueError (int_str_limit_error h))
                   else Ok (VInt z)).
    { unfold shown, exceeds_str_limit. rewrite E, Hmax. reflexivity. }
    split; intro H.
    - rewrite Hs.
      destruct (Z.leb_spec (10 ^ Z.of_nat n) (Z.abs z)); [lia | reflexivity].
    - assert (Hr : shown h (Ok (VInt z))
                   = Raise (ValueError (int_str_limit_error h))).
      { rewrite Hs.
        destruct (Z.leb_spec (10 ^ Z.of_nat n) (Z.abs z));
          [reflexivity | lia]. }
      split; [exact Hr|].
      split.
      + intros p s Es. unfold tried. rewrite Es, Hr. reflexivity.
      + intros p args Es. unfold main_argv. rewrite Es, Hr. reflexivity. }
  split; [intros v Hv; destruct v; try reflexivity; discriminate|].
  split; [reflexivity|]. split; [reflexivity|].
  intros p a args inp. unfold main_argv, program.
  destruct (shown h (safe_eval h p (String.concat " " (a :: args))));
    split; reflexivity.
Qed.
